(** * Product catalog front end: the mutation hooks and their query cache

    A shallow embedding of [src/services/productService.ts],
    [src/services/categoryService.ts], the price field and submit
    handler of [src/components/customize/form/AddEditProductForm.tsx]
    and the validation schema of [src/lib/schema.ts].

    The hooks are written against a query client (cache store, fetch
    coordinator, invalidation) and a toast collaborator that are not
    part of the sources; these are modelled in [Module Client] from
    their contracts.  Every handler below follows the source line by
    line over that client. *)

From Stdlib Require Import ZArith QArith Ascii.
From stdpp Require Import base decidable option list strings gmap.

Close Scope Q_scope.
Local Open Scope Z_scope.

(** ** Domain types ([src/lib/types.tsx]) *)

#[global] Instance Q_eq_dec : EqDecision Q.
Proof. solve_decision. Defined.

(** ** JavaScript numbers

    The price of the form is a JavaScript number.  It can be a
    fraction (a price that came from the server) and, through
    [parseInt], [Infinity]; it is never [NaN] or negative zero here. *)
Inductive JsNumber :=
  | Finite (q : Q)
  | Infinity.

#[global] Instance JsNumber_eq_dec : EqDecision JsNumber.
Proof. solve_decision. Defined.

(** The Number value of a non-negative mathematical integer, as
    [parseInt] produces it: the integer itself up to 2^53, beyond that
    the nearest value with a 53-bit significand (ties to the even
    significand), and [Infinity] once that value reaches 2^1024. *)
Definition toNumber (n : Z) : JsNumber :=
  if n <=? 2 ^ 53 then Finite (inject_Z n)
  else
    let e := Z.log2 n - 52 in
    let q := n / 2 ^ e in
    let r := n mod 2 ^ e in
    let half := 2 ^ (e - 1) in
    let q' :=
      if r <? half then q
      else if half <? r then q + 1
      else if Z.even q then q else q + 1 in
    let rounded := q' * 2 ^ e in
    if rounded <? 2 ^ 1024 then Finite (inject_Z rounded) else Infinity.

Definition isInfinity (x : JsNumber) : bool :=
  match x with Infinity => true | Finite _ => false end.

Inductive Status := success | error.

#[global] Instance Status_eq_dec : EqDecision Status.
Proof. solve_decision. Defined.

(** [Response<T>]: the envelope every endpoint answers with. *)
Record Response (T : Type) := mkResponse {
  data : T;
  message : string;
  status : Status
}.
Arguments mkResponse {T} _ _ _.
Arguments data {T} _.
Arguments message {T} _.
Arguments status {T} _.

#[global] Instance Response_eq_dec `{EqDecision T} : EqDecision (Response T).
Proof. solve_decision. Defined.

Module Category.
Record t := mk { id : Z; name : string }.

#[global] Instance eq_dec : EqDecision t.
Proof. solve_decision. Defined.
End Category.

Module Product.
(** [price] is a JavaScript number; the API examples of the services
    use prices such as 19.99, hence a rational. *)
Record t := mk {
  id : Z;
  name : string;
  price : Q;
  categories : list Category.t
}.

#[global] Instance eq_dec : EqDecision t.
Proof. solve_decision. Defined.
End Product.

(** The cache is untyped at run time: a list entry holds product
    records under the ["products"] keys and category records under
    ["categories"].  The updaters only ever read a record's [id]. *)
Inductive Row :=
  | ProductRow (p : Product.t)
  | CategoryRow (c : Category.t).

#[global] Instance Row_eq_dec : EqDecision Row.
Proof. solve_decision. Defined.

Definition row_id (r : Row) : Z :=
  match r with
  | ProductRow p => Product.id p
  | CategoryRow c => Category.id c
  end.

(** A cached list response.  The static type says [data: T], yet every
    updater guards against [!oldData.data]; the field is therefore
    optional here.  An array, even an empty one, is truthy. *)
Definition ListResponse := Response (option (list Row)).

(** ** Query keys *)

(** [["products", payload?.categoryIds, payload?.name]] and
    [["categories"]]. *)
Inductive KeyPart :=
  | KString (s : string)
  | KNumbers (ids : list Z)
  | KUndefined.

#[global] Instance KeyPart_eq_dec : EqDecision KeyPart.
Proof. solve_decision. Defined.

#[global] Instance KeyPart_countable : Countable KeyPart.
Proof.
  refine (inj_countable'
    (λ k, match k with
          | KString s => inl s
          | KNumbers l => inr (inl l)
          | KUndefined => inr (inr ())
          end)
    (λ x, match x with
          | inl s => KString s
          | inr (inl l) => KNumbers l
          | inr (inr _) => KUndefined
          end) _).
  by intros [].
Defined.

Definition QueryKey := list KeyPart.

Definition productsKey : QueryKey := [KString "products"].
Definition categoriesKey : QueryKey := [KString "categories"].

(** ** Events observable outside the cache *)

Inductive Method := GET | POST | PUT | DELETE.

#[global] Instance Method_eq_dec : EqDecision Method.
Proof. solve_decision. Defined.

Inductive Event :=
  | EvRequest (m : Method) (path : string)
  | EvCancel (k : QueryKey)
  | EvWrite (k : QueryKey)
  | EvInvalidate (k : QueryKey)
  | EvRefetch (k : QueryKey)
  | EvToastSuccess (title description : string)
  | EvToastError (title : string) (description : option string)
  | EvConsole (text : string).

#[global] Instance Event_eq_dec : EqDecision Event.
Proof. solve_decision. Defined.

Definition isRequest (e : Event) : bool :=
  match e with EvRequest _ _ => true | _ => false end.
Definition isCancel (e : Event) : bool :=
  match e with EvCancel _ => true | _ => false end.
Definition isWrite (e : Event) : bool :=
  match e with EvWrite _ => true | _ => false end.
Definition isInvalidate (e : Event) : bool :=
  match e with EvInvalidate _ => true | _ => false end.
Definition isRefetch (e : Event) : bool :=
  match e with EvRefetch _ => true | _ => false end.
Definition isToast (e : Event) : bool :=
  match e with EvToastSuccess _ _ | EvToastError _ _ => true | _ => false end.

(** ** The query client *)

Module Client.

Inductive FetchStatus := Idle | Fetching | Success | Error.

#[global] Instance FetchStatus_eq_dec : EqDecision FetchStatus.
Proof. solve_decision. Defined.

(** Modelled from the spec: the cache entry of the query client
    (the client library is not among the sources).  [state_data] is
    what the hooks read as [query.state.data]; the key is the index
    of the entry in the store. *)
Record QueryEntry := mkEntry {
  state_data : option ListResponse;
  fetchStatus : FetchStatus;
  stale : bool;
  lastUpdated : option nat;
  subscriberCount : nat
}.

#[global] Instance QueryEntry_eq_dec : EqDecision QueryEntry.
Proof. solve_decision. Defined.

(** Modelled from the spec: the cache store, a finite map from query
    key to entry, indexed by key equality. *)
Abbreviation QueryCache := (gmap QueryKey QueryEntry).

(** A computation over the store that also emits events. *)
Definition Eff (A : Type) : Type := QueryCache → A * QueryCache * list Event.

Definition ret {A} (a : A) : Eff A := λ c, (a, c, []).

Definition bind {A B} (m : Eff A) (k : A → Eff B) : Eff B := λ c,
  let '(a, c1, e1) := m c in
  let '(b, c2, e2) := k a c1 in
  (b, c2, e1 ++ e2).

Definition emit (e : Event) : Eff unit := λ c, ((), c, [e]).

Definition cacheOf {A} (r : A * QueryCache * list Event) : QueryCache := r.1.2.
Definition eventsOf {A} (r : A * QueryCache * list Event) : list Event := r.2.

(** Modelled from the spec: a filter [{ queryKey }] selects every
    entry whose key starts with the filter key (the target key
    predicate of a mutation request). *)
Definition matchKey (filterKey key : QueryKey) : bool :=
  bool_decide (filterKey `prefix_of` key).

Definition affected (filterKey : QueryKey) (c : QueryCache)
  : list (QueryKey * QueryEntry) :=
  filter (λ kq, matchKey filterKey kq.1 = true) (map_to_list c).

Definition onAffected (filterKey : QueryKey) (f : QueryEntry → QueryEntry)
    (c : QueryCache) : QueryCache :=
  map_imap (λ k q, Some (if matchKey filterKey k then f q else q)) c.

(** Modelled from the spec: [Fetch Coordinator.cancel] aborts the
    in-flight fetch of a key; the entry is no longer fetching and
    keeps its data. *)
Definition cancelEntry (q : QueryEntry) : QueryEntry :=
  match fetchStatus q with
  | Fetching =>
      mkEntry (state_data q) Idle (stale q) (lastUpdated q) (subscriberCount q)
  | _ => q
  end.

(** Modelled from the spec: [queryClient.cancelQueries(filter)] calls
    cancel for each affected key. *)
Definition cancelQueries (filterKey : QueryKey) : Eff unit := λ c,
  ((), onAffected filterKey cancelEntry c,
   (λ kq, EvCancel kq.1) <$> affected filterKey c).

(** Modelled from the spec: [write] applies the updater to the data
    of an entry; an updater that produces no value is a no-op. *)
Definition writeEntry (updater : option ListResponse → option ListResponse)
    (q : QueryEntry) : QueryEntry :=
  match updater (state_data q) with
  | Some d =>
      mkEntry (Some d) (fetchStatus q) (stale q) (lastUpdated q)
              (subscriberCount q)
  | None => q
  end.

Definition writes (updater : option ListResponse → option ListResponse)
    (kq : QueryKey * QueryEntry) : bool :=
  bool_decide (is_Some (updater (state_data kq.2))).

(** Modelled from the spec: [queryClient.setQueriesData(filter,
    updater)], the store's [write] over every matching entry. *)
Definition setQueriesData (filterKey : QueryKey)
    (updater : option ListResponse → option ListResponse) : Eff unit := λ c,
  ((), onAffected filterKey (writeEntry updater) c,
   (λ kq, EvWrite kq.1) <$>
     filter (λ kq, writes updater kq = true) (affected filterKey c)).

(** Modelled from the spec: [markStale] flags the entry without
    clearing its data. *)
Definition markStale (q : QueryEntry) : QueryEntry :=
  mkEntry (state_data q) (fetchStatus q) true (lastUpdated q)
          (subscriberCount q).

Definition isActive (q : QueryEntry) : bool :=
  bool_decide (0 < subscriberCount q)%nat.

(** Modelled from the spec: an eager refetch through the fetch
    coordinator puts the entry in the fetching state. *)
Definition refetchEntry (q : QueryEntry) : QueryEntry :=
  if isActive q then
    mkEntry (state_data q) Fetching (stale q) (lastUpdated q)
            (subscriberCount q)
  else q.

Definition selected (filterKey : QueryKey) (predicate : QueryEntry → bool)
    (c : QueryCache) : list (QueryKey * QueryEntry) :=
  filter (λ kq, predicate kq.2 = true) (affected filterKey c).

(** Modelled from the spec: [queryClient.invalidateQueries({ queryKey,
    predicate })] marks stale every entry that matches the key and
    satisfies the predicate, and refetches at once those of them that
    are subscribed to. *)
Definition invalidateQueries (filterKey : QueryKey)
    (predicate : QueryEntry → bool) : Eff unit := λ c,
  ((), onAffected filterKey
         (λ q, if predicate q then refetchEntry (markStale q) else q) c,
   ((λ kq, EvInvalidate kq.1) <$> selected filterKey predicate c) ++
   ((λ kq, EvRefetch kq.1) <$>
      filter (λ kq, isActive kq.2 = true) (selected filterKey predicate c))).

(** Modelled from the spec: the completion of a fetch stores its
    result only while the entry is still fetching; the result of a
    cancelled fetch is discarded. *)
Definition settleFetch (k : QueryKey) (result : ListResponse) (now : nat)
    (c : QueryCache) : QueryCache :=
  match c !! k with
  | Some q =>
      match fetchStatus q with
      | Fetching =>
          <[k := mkEntry (Some result) Success false (Some now)
                         (subscriberCount q)]> c
      | _ => c
      end
  | None => c
  end.

End Client.

Import Client.

Notation "m ;; k" := (bind m (λ _, k))
  (at level 100, k at level 200, right associativity).

(** ** Collaborators of the hooks *)

(** [toast.success(title, { description })] and [toast.error(title,
    { description })] of the notification collaborator; the description
    of an error toast may be [undefined]. *)
Definition toast_success (title description : string) : Eff unit :=
  emit (EvToastSuccess title description).

Definition toast_error (title : string) (description : option string)
  : Eff unit :=
  emit (EvToastError title description).

Definition console (text : string) : Eff unit := emit (EvConsole text).

(** What a handler reads of a rejected request.  A transport failure
    has no [response]; a response may come without a body ([data] is
    [undefined] or [null]); a body may or may not carry a message. *)
Record ErrorBody := mkErrorBody { body_message : option string }.

Record ErrorResponse := mkErrorResponse { response_data : option ErrorBody }.

Record AxiosError := mkAxiosError { response : option ErrorResponse }.

(** An expression or a handler either returns or throws. *)
Inductive Completion (A : Type) :=
  | Returned (value : A)
  | Thrown.
Arguments Returned {A} _.
Arguments Thrown {A}.

(** [error.response?.data.message]: [undefined] when there is no
    response; the optional chain guards [response] only, so reading
    [message] of an absent body throws a [TypeError]. *)
Definition responseMessage (error : AxiosError) : Completion (option string) :=
  match response error with
  | None => Returned None
  | Some r =>
      match response_data r with
      | None => Thrown
      | Some body => Returned (body_message body)
      end
  end.

(** [toast.error("Failed", { description: error.response?.data.message })]:
    the argument is evaluated first; when it throws, [toast.error] is
    never called. *)
Definition toast_failed (error : AxiosError) : Eff (Completion unit) :=
  match responseMessage error with
  | Returned description =>
      bind (toast_error "Failed" description) (λ _, ret (Returned ()))
  | Thrown => ret Thrown
  end.

(** How the request of a mutation settles; the transport is external,
    so the settlement is an input of the model. *)
Inductive Settled (R : Type) :=
  | Fulfilled (value : R)
  | Rejected (reason : AxiosError).
Arguments Fulfilled {R} _.
Arguments Rejected {R} _.

Record MutationOptions (V R : Type) := mkMutation {
  mutationFn : V → Eff unit;
  onSuccess : R → Eff unit;
  onError : AxiosError → Eff (Completion unit);
  onSettled : Eff unit
}.
Arguments mkMutation {V R} _ _ _ _.
Arguments mutationFn {V R} _ _.
Arguments onSuccess {V R} _ _.
Arguments onError {V R} _ _.
Arguments onSettled {V R} _.

(** Modelled from the spec: the mutation executor behind
    [useMutation].  Submitting is the network call of [mutationFn];
    its result leads to Committed ([onSuccess]) or RolledBack
    ([onError]); then the mutation is Settled ([onSettled]).  None of
    the hooks registers a handler that runs before the call.  A
    handler that throws ends the settlement: the handlers after it are
    not run. *)
Definition mutate {V R} (options : MutationOptions V R) (variables : V)
    (outcome : Settled R) : Eff unit :=
  mutationFn options variables ;;
  match outcome with
  | Fulfilled value => onSuccess options value ;; onSettled options
  | Rejected reason =>
      bind (onError options reason)
           (λ completion,
              match completion with
              | Returned _ => onSettled options
              | Thrown => ret ()
              end)
  end.

(** [predicate(query) { return !query.state.data; }] *)
Definition predicate (query : QueryEntry) : bool :=
  match state_data query with
  | None => true
  | Some _ => false
  end.

(** ** [src/services/productService.ts] *)

Module AddProductPayload.
Record t := mk { name : string; categoryIds : list Z; price : JsNumber }.
End AddProductPayload.

Module EditProductPayload.
Record t := mk { id : Z; name : string; categoryIds : list Z; price : JsNumber }.
End EditProductPayload.

Definition addProduct (payload : AddProductPayload.t) : Eff unit :=
  emit (EvRequest POST "/api/product/add").

Definition editProduct (payload : EditProductPayload.t) : Eff unit :=
  emit (EvRequest PUT "/api/product").

Definition deleteProduct (id : Z) : Eff unit :=
  emit (EvRequest DELETE "/api/product").

(** The updater of [useMutateAddProduct]:
    [{ ...oldData, data: [newProduct.data, ...oldData.data] }]. *)
Definition addProductUpdater (newProduct : Response Product.t)
    (oldData : option ListResponse) : option ListResponse :=
  match oldData with
  | None => oldData
  | Some old =>
      match data old with
      | None => oldData
      | Some rows =>
          Some (mkResponse (Some (ProductRow (data newProduct) :: rows))
                           (message old) (status old))
      end
  end.

Definition useMutateAddProduct
  : MutationOptions AddProductPayload.t (Response Product.t) :=
  mkMutation
    addProduct
    (λ newProduct,
       let queryFilter := productsKey in
       cancelQueries queryFilter ;;
       setQueriesData queryFilter (addProductUpdater newProduct) ;;
       toast_success "Success" "Product added successfully" ;;
       invalidateQueries queryFilter predicate)
    (λ error, toast_failed error)
    (ret ()).

(** The updater of [useMutateEditProduct]:
    [oldData.data.map((product) =>
       product.id === newProduct.data.id ? newProduct.data : product)]. *)
Definition editProductUpdater (newProduct : Response Product.t)
    (oldData : option ListResponse) : option ListResponse :=
  match oldData with
  | None => oldData
  | Some old =>
      match data old with
      | None => oldData
      | Some rows =>
          Some (mkResponse
                  (Some ((λ product,
                            if bool_decide
                                 (row_id product = Product.id (data newProduct))
                            then ProductRow (data newProduct)
                            else product) <$> rows))
                  (message old) (status old))
      end
  end.

Definition useMutateEditProduct
  : MutationOptions EditProductPayload.t (Response Product.t) :=
  mkMutation
    editProduct
    (λ newProduct,
       let queryFilter := productsKey in
       cancelQueries queryFilter ;;
       setQueriesData queryFilter (editProductUpdater newProduct) ;;
       toast_success "Success" "Product updated successfully" ;;
       invalidateQueries queryFilter predicate)
    (λ error,
       console "Product update failed" ;;
       toast_failed error)
    (console "Product update mutation completed").

(** The updater of [useMutateDeleteProduct]:
    [deletedIds = deletedProduct.data.map((product) => product.id)] and
    [oldData.data.filter((product) => !deletedIds.includes(product.id))]. *)
Definition deleteProductUpdater (deletedProduct : Response (list Product.t))
    (oldData : option ListResponse) : option ListResponse :=
  match oldData with
  | None => oldData
  | Some old =>
      match data old with
      | None => oldData
      | Some rows =>
          let deletedIds := Product.id <$> data deletedProduct in
          Some (mkResponse
                  (Some (filter (λ product, row_id product ∉ deletedIds) rows))
                  (message old) (status old))
      end
  end.

Definition useMutateDeleteProduct
  : MutationOptions Z (Response (list Product.t)) :=
  mkMutation
    deleteProduct
    (λ deletedProduct,
       let queryFilter := productsKey in
       cancelQueries queryFilter ;;
       setQueriesData queryFilter (deleteProductUpdater deletedProduct) ;;
       toast_success "Success" "Product deleted successfully" ;;
       invalidateQueries queryFilter predicate)
    (λ error, toast_failed error)
    (ret ()).

(** ** [src/services/categoryService.ts] *)

Definition addCategory (category : string) : Eff unit :=
  emit (EvRequest POST "/api/category/add").

(** The updater of [useAddCategory]:
    [{ ...oldData, data: [...oldData.data, ...newCategory.data] }]. *)
Definition addCategoryUpdater (newCategory : Response (list Category.t))
    (oldData : option ListResponse) : option ListResponse :=
  match oldData with
  | None => oldData
  | Some old =>
      match data old with
      | None => oldData
      | Some rows =>
          Some (mkResponse (Some (rows ++ (CategoryRow <$> data newCategory)))
                           (message old) (status old))
      end
  end.

Definition useAddCategory
  : MutationOptions string (Response (list Category.t)) :=
  mkMutation
    addCategory
    (λ newCategory,
       let queryFilter := categoriesKey in
       cancelQueries queryFilter ;;
       setQueriesData queryFilter (addCategoryUpdater newCategory) ;;
       invalidateQueries queryFilter predicate)
    (λ error, bind (console "error") (λ _, ret (Returned ())))
    (ret ()).

(** ** One mutation of the engine, with its settlement *)

Inductive Submission :=
  | SubmitAddProduct (payload : AddProductPayload.t)
      (outcome : Settled (Response Product.t))
  | SubmitEditProduct (payload : EditProductPayload.t)
      (outcome : Settled (Response Product.t))
  | SubmitDeleteProduct (id : Z)
      (outcome : Settled (Response (list Product.t)))
  | SubmitAddCategory (category : string)
      (outcome : Settled (Response (list Category.t))).

Definition run (s : Submission) : Eff unit :=
  match s with
  | SubmitAddProduct payload outcome => mutate useMutateAddProduct payload outcome
  | SubmitEditProduct payload outcome => mutate useMutateEditProduct payload outcome
  | SubmitDeleteProduct id outcome => mutate useMutateDeleteProduct id outcome
  | SubmitAddCategory category outcome => mutate useAddCategory category outcome
  end.

Definition isRejected {R} (outcome : Settled R) : bool :=
  match outcome with Rejected _ => true | Fulfilled _ => false end.

Definition failed (s : Submission) : bool :=
  match s with
  | SubmitAddProduct _ outcome => isRejected outcome
  | SubmitEditProduct _ outcome => isRejected outcome
  | SubmitDeleteProduct _ outcome => isRejected outcome
  | SubmitAddCategory _ outcome => isRejected outcome
  end.

Definition isProductMutation (s : Submission) : bool :=
  match s with
  | SubmitAddCategory _ _ => false
  | _ => true
  end.

Definition reasonOf {R} (outcome : Settled R) : option AxiosError :=
  match outcome with Rejected reason => Some reason | Fulfilled _ => None end.

Definition rejectionOf (s : Submission) : option AxiosError :=
  match s with
  | SubmitAddProduct _ outcome => reasonOf outcome
  | SubmitEditProduct _ outcome => reasonOf outcome
  | SubmitDeleteProduct _ outcome => reasonOf outcome
  | SubmitAddCategory _ outcome => reasonOf outcome
  end.

(** The failures on which the error handler of a product hook throws
    while it reads the message; the handler of the category hook reads
    nothing of the error. *)
Definition onErrorThrows (s : Submission) : bool :=
  isProductMutation s &&
  match rejectionOf s with
  | Some reason =>
      match responseMessage reason with
      | Thrown => true
      | Returned _ => false
      end
  | None => false
  end.

(** The key filter and the updater a committed mutation applies. *)
Definition resourceKey (s : Submission) : QueryKey :=
  match s with
  | SubmitAddCategory _ _ => categoriesKey
  | _ => productsKey
  end.

Definition updaterOf (s : Submission)
  : option (option ListResponse → option ListResponse) :=
  match s with
  | SubmitAddProduct _ (Fulfilled r) => Some (addProductUpdater r)
  | SubmitEditProduct _ (Fulfilled r) => Some (editProductUpdater r)
  | SubmitDeleteProduct _ (Fulfilled r) => Some (deleteProductUpdater r)
  | SubmitAddCategory _ (Fulfilled r) => Some (addCategoryUpdater r)
  | _ => None
  end.


(** ** Order of events in a trace *)

(** Every event satisfying [P] occurs strictly before every event
    satisfying [Q]. *)
Definition precedes (P Q : Event → bool) (tr : list Event) : Prop :=
  ∀ (i j : nat) (a b : Event),
    tr !! i = Some a → tr !! j = Some b →
    P a = true → Q b = true → (i < j)%nat.

Definition isNotice (e : Event) : bool :=
  match e with
  | EvToastSuccess _ _ | EvToastError _ _ | EvConsole _ => true
  | _ => false
  end.


Definition touchesStore (e : Event) : bool :=
  isCancel e || isWrite e || isInvalidate e || isRefetch e.

Definition notifications (tr : list Event) : list Event :=
  filter (λ e, isToast e = true) tr.

(** The list a key holds, when its entry has data. *)
Definition cachedRows (c : QueryCache) (k : QueryKey) : option (list Row) :=
  match c !! k with
  | Some q =>
      match state_data q with
      | Some old => data old
      | None => None
      end
  | None => None
  end.

(** [!oldData || !oldData.data], the guard of every updater. *)
Definition noData (oldData : option ListResponse) : bool :=
  match oldData with
  | None => true
  | Some old =>
      match data old with
      | None => true
      | Some _ => false
      end
  end.

(** ** [src/lib/schema.ts] *)

Module AddProductSchema.
Record t := mk { name : string; price : JsNumber; categories : list Category.t }.
End AddProductSchema.

(** The two revisions of the schema differ in the least price they
    accept: [z.number().min(1, ...)] and [z.number().min(0, ...)]. *)
Inductive SchemaRevision := PriceAtLeastOne | PriceNonNegative.

Definition priceMinimum (rev : SchemaRevision) : Q :=
  match rev with
  | PriceAtLeastOne => inject_Z 1
  | PriceNonNegative => inject_Z 0
  end.

(** [z.number().min(m, ...)]: a number that is not below [m];
    [Infinity] is a number and passes. *)
Definition numberMin (m : Q) (x : JsNumber) : bool :=
  match x with
  | Finite q => Qle_bool m q
  | Infinity => true
  end.

(** [AddProductZodSchema.safeParse(data).success] *)
Definition AddProductZodSchema (rev : SchemaRevision)
    (data : AddProductSchema.t) : bool :=
  bool_decide (1 ≤ String.length (AddProductSchema.name data))%nat
  && numberMin (priceMinimum rev) (AddProductSchema.price data)
  && bool_decide (1 ≤ length (AddProductSchema.categories data))%nat.

(** ** [src/components/customize/form/AddEditProductForm.tsx] *)

Definition isDigit (a : Ascii.ascii) : bool :=
  bool_decide (48 ≤ Ascii.nat_of_ascii a ≤ 57)%nat.

Definition digitValue (a : Ascii.ascii) : Z := Z.of_nat (Ascii.nat_of_ascii a) - 48.

(** The [replace] of the price input, with the pattern [/[^0-9]/g]:
    every character that is not an ASCII digit is dropped. *)
Fixpoint replaceNonDigits (s : string) : string :=
  match s with
  | EmptyString => EmptyString
  | String a s' =>
      if isDigit a then String a (replaceNonDigits s') else replaceNonDigits s'
  end.

Fixpoint parseDigits (acc : Z) (s : string) : Z :=
  match s with
  | EmptyString => acc
  | String a s' =>
      if isDigit a then parseDigits (10 * acc + digitValue a) s' else acc
  end.

(** [parseInt(value, 10)] on a string that starts with a digit: the
    Number value of the mathematical integer its leading digits
    denote.  The form only calls it on a non-empty string of digits. *)
Definition parseInt (value : string) : JsNumber :=
  toNumber (parseDigits 0 value).

(** The [onChange] of the price input. *)
Definition priceOnChange (targetValue : string) : JsNumber :=
  let value := replaceNonDigits targetValue in
  let numberValue :=
    if String.eqb value EmptyString then Finite (inject_Z 0)
    else parseInt value in
  numberValue.

(** The digits of a string, in their order: what is left of it when
    every other character is stripped. *)
Fixpoint digitsOf (s : string) : list Z :=
  match s with
  | EmptyString => []
  | String a s' =>
      if isDigit a then digitValue a :: digitsOf s' else digitsOf s'
  end.

(** The integer that a sequence of decimal digits denotes; 0 for the
    empty sequence. *)
Definition decimalValue (digits : list Z) : Z :=
  fold_left (λ acc d, 10 * acc + d) digits 0.

Record AddEditProductFormProps := mkProps { product : option Product.t }.

(** [defaultValues] of [useForm]. *)
Definition defaultValues (props : AddEditProductFormProps)
  : AddProductSchema.t :=
  AddProductSchema.mk
    (from_option Product.name EmptyString (product props))
    (Finite (from_option Product.price (inject_Z 0) (product props)))
    (from_option Product.categories [] (product props)).

(** What the user does to the form before submitting. *)
Inductive FieldChange :=
  | ChangeName (value : string)
  | ChangePrice (typed : string)
  | ChangeCategories (value : list Category.t).

Definition applyChange (data : AddProductSchema.t) (ch : FieldChange)
  : AddProductSchema.t :=
  match ch with
  | ChangeName value =>
      AddProductSchema.mk value (AddProductSchema.price data)
        (AddProductSchema.categories data)
  | ChangePrice typed =>
      AddProductSchema.mk (AddProductSchema.name data) (priceOnChange typed)
        (AddProductSchema.categories data)
  | ChangeCategories value =>
      AddProductSchema.mk (AddProductSchema.name data)
        (AddProductSchema.price data) value
  end.

Definition formAfter (props : AddEditProductFormProps)
    (changes : list FieldChange) : AddProductSchema.t :=
  fold_left applyChange changes (defaultValues props).

Definition priceEdited (changes : list FieldChange) : bool :=
  existsb (λ ch, match ch with ChangePrice _ => true | _ => false end) changes.

Inductive MutationCall :=
  | EditProductMutation (payload : EditProductPayload.t)
  | AddProductMutation (payload : AddProductPayload.t).

Definition payloadPrice (call : MutationCall) : JsNumber :=
  match call with
  | EditProductMutation payload => EditProductPayload.price payload
  | AddProductMutation payload => AddProductPayload.price payload
  end.

(** [onSubmit]: nothing is sent when [safeParse] fails; otherwise the
    edit mutation for an existing product and the add mutation for a
    new one, with [price: data.price]. *)
Definition onSubmit (rev : SchemaRevision) (props : AddEditProductFormProps)
    (data : AddProductSchema.t) : option MutationCall :=
  if negb (AddProductZodSchema rev data) then None
  else
    match product props with
    | Some p =>
        Some (EditProductMutation
                (EditProductPayload.mk (Product.id p)
                   (AddProductSchema.name data)
                   (Category.id <$> AddProductSchema.categories data)
                   (AddProductSchema.price data)))
    | None =>
        Some (AddProductMutation
                (AddProductPayload.mk
                   (AddProductSchema.name data)
                   (Category.id <$> AddProductSchema.categories data)
                   (AddProductSchema.price data)))
    end.

Definition isNonNegativeInteger (x : JsNumber) : bool :=
  match x with
  | Finite q => (0 <=? Qnum q) && (Qnum q mod Z.pos (Qden q) =? 0)
  | Infinity => false
  end.

(** ** A store to run the hooks on *)

Module Scenario.

Definition electronics : Category.t := Category.mk 1 "electronics".
Definition toys : Category.t := Category.mk 2 "toys".
Definition garden : Category.t := Category.mk 3 "garden".

Definition lamp : Product.t := Product.mk 5 "Old" (inject_Z 120) [electronics].
Definition kite : Product.t := Product.mk 7 "Kite" (Qmake 1999 100) [toys].
Definition robot : Product.t := Product.mk 3 "Robot" (inject_Z 450) [toys].
Definition drone : Product.t := Product.mk 11 "Drone" (inject_Z 900) [electronics].

Definition ok {T} (d : T) : Response T := mkResponse d "ok" success.

(** The dashboard query without filter, subscribed, with data. *)
Definition allProducts : QueryKey := [KString "products"; KUndefined; KString EmptyString].
(** The query filtered by category 2, cached but no longer shown. *)
Definition toyProducts : QueryKey := [KString "products"; KNumbers [2]; KString EmptyString].
(** A subscribed query whose first fetch is still in flight. *)
Definition gardenProducts : QueryKey := [KString "products"; KNumbers [3]; KString EmptyString].

Definition store : QueryCache :=
  <[allProducts :=
      mkEntry (Some (ok (Some [ProductRow lamp; ProductRow kite; ProductRow robot])))
              Fetching false (Some 10%nat) 1]>
  (<[toyProducts :=
      mkEntry (Some (ok (Some [ProductRow kite; ProductRow robot])))
              Success false (Some 4%nat) 0]>
  (<[gardenProducts := mkEntry None Fetching false None 1]>
  (<[categoriesKey :=
      mkEntry (Some (ok (Some [CategoryRow electronics; CategoryRow toys])))
              Success false (Some 2%nat) 2]> ∅))).

Definition addDrone : Submission :=
  SubmitAddProduct (AddProductPayload.mk "Drone" [1] (Finite (inject_Z 900)))
    (Fulfilled (ok drone)).

Definition renameLamp : Submission :=
  SubmitEditProduct (EditProductPayload.mk 5 "New" [1] (Finite (inject_Z 120)))
    (Fulfilled (ok (Product.mk 5 "New" (inject_Z 120) [electronics]))).

Definition deleteKite : Submission :=
  SubmitDeleteProduct 7 (Fulfilled (ok [kite])).

(** The server answers a delete with the products that remain, as the
    documentation of [deleteProduct] describes its response. *)
Definition deleteKiteRemaining : Submission :=
  SubmitDeleteProduct 7 (Fulfilled (ok [lamp; robot])).

Definition addGarden : Submission :=
  SubmitAddCategory "garden" (Fulfilled (ok [garden])).

Definition rejection : AxiosError :=
  mkAxiosError
    (Some (mkErrorResponse (Some (mkErrorBody (Some "Category already exists"))))).

Definition addGardenRejected : Submission :=
  SubmitAddCategory "garden" (Rejected rejection).

(** A price typed with 309 nines. *)
Definition nines : string :=
  Nat.iter 309 (String "9"%char) EmptyString.

Definition deleteKiteRejected : Submission :=
  SubmitDeleteProduct 7 (Rejected (mkAxiosError None)).

End Scenario.

(** ** Selecting categories

    [src/components/customize/CategoryFilter.tsx], [src/pages/Dashboard.tsx]
    and the category list of the product form. *)

(** [selectedCategories.some((selectedCat) => selectedCat.id === category.id)] *)
Definition isSelected (selectedCategories : list Category.t)
    (category : Category.t) : bool :=
  existsb
    (λ selectedCat,
       bool_decide (Category.id selectedCat = Category.id category))
    selectedCategories.

(** [handleCategoryChange] of the category filter and of the dashboard:
    the selection it stores with [setSelectedCategories]. *)
Definition handleCategoryChange (selectedCategories : list Category.t)
    (category : Category.t) : list Category.t :=
  if isSelected selectedCategories category then
    let filteredCategories :=
      filter (λ cat, Category.id cat ≠ Category.id category)
             selectedCategories in
    filteredCategories
  else
    let newCategories := selectedCategories ++ [category] in
    newCategories.

(** [removeCategory] of the product form: the value it sets for the
    [categories] field. *)
Definition removeCategory (selectedCategories : list Category.t)
    (categoryToRemove : Category.t) : list Category.t :=
  filter (λ category, Category.id category ≠ Category.id categoryToRemove)
         selectedCategories.

(** The [onClick] of a row of the category list of the product form:
    the value it passes to [field.onChange]. *)
Definition onCategoryClick (value : list Category.t)
    (category : Category.t) : list Category.t :=
  let selectedNow :=
    existsb (λ c, bool_decide (Category.id c = Category.id category)) value in
  if selectedNow then
    filter (λ c, Category.id c ≠ Category.id category) value
  else value ++ [category].

(** ** The keys of the queries *)

Module GetProductsPayload.
Record t := mk { categoryIds : option (list Z); name : option string }.
End GetProductsPayload.

(** [queryKey: ["products", payload?.categoryIds, payload?.name]] of
    [useGetProductsQuery]. *)
Definition useGetProductsQuery_queryKey (payload : option GetProductsPayload.t)
  : QueryKey :=
  [KString "products";
   from_option KNumbers KUndefined
     (payload ≫= GetProductsPayload.categoryIds);
   from_option KString KUndefined
     (payload ≫= GetProductsPayload.name)].

(** [queryKey: ["categories"]] of [useGetCategories]. *)
Definition useGetCategories_queryKey : QueryKey := [KString "categories"].

(** The payload the dashboard queries with: the ids of the selected
    categories, or [undefined] when none is selected, and the search
    text. *)
Definition dashboardPayload (selectedCategories : list Category.t)
    (searchName : string) : GetProductsPayload.t :=
  GetProductsPayload.mk
    (if bool_decide (0 < length selectedCategories)%nat
     then Some (Category.id <$> selectedCategories)
     else None)
    (Some searchName).

(** ** What a submitted call carries *)

Definition payloadName (call : MutationCall) : string :=
  match call with
  | EditProductMutation payload => EditProductPayload.name payload
  | AddProductMutation payload => AddProductPayload.name payload
  end.

Definition payloadCategoryIds (call : MutationCall) : list Z :=
  match call with
  | EditProductMutation payload => EditProductPayload.categoryIds payload
  | AddProductMutation payload => AddProductPayload.categoryIds payload
  end.

(** The product an edit call names; an add call names none. *)
Definition payloadId (call : MutationCall) : option Z :=
  match call with
  | EditProductMutation payload => Some (EditProductPayload.id payload)
  | AddProductMutation _ => None
  end.

(** The function [useMutateEditProduct] maps over a cached list. *)
Definition replaceRow (newProduct : Response Product.t) (product : Row) : Row :=
  if bool_decide (row_id product = Product.id (data newProduct))
  then ProductRow (data newProduct) else product.

Definition isInvalidation (e : Event) : bool :=
  isInvalidate e || isRefetch e.

Definition isConsole (e : Event) : bool :=
  match e with EvConsole _ => true | _ => false end.

(** * Properties *)

(** ** The store operations, key by key *)

Lemma lookup_onAffected (fk : QueryKey) (f : QueryEntry → QueryEntry)
    (c : QueryCache) (k : QueryKey) :
  onAffected fk f c !! k = (λ q, if matchKey fk k then f q else q) <$> c !! k.
Proof.
  unfold onAffected. rewrite map_lookup_imap.
  by destruct (c !! k).
Qed.

Lemma elem_of_affected (fk : QueryKey) (c : QueryCache) (k : QueryKey)
    (q : QueryEntry) :
  (k, q) ∈ affected fk c ↔ c !! k = Some q ∧ matchKey fk k = true.
Proof.
  unfold affected. rewrite list_elem_of_filter, elem_of_map_to_list. simpl.
  tauto.
Qed.

Lemma elem_of_selected (fk : QueryKey) (p : QueryEntry → bool)
    (c : QueryCache) (k : QueryKey) (q : QueryEntry) :
  (k, q) ∈ selected fk p c ↔
  c !! k = Some q ∧ matchKey fk k = true ∧ p q = true.
Proof.
  unfold selected. rewrite list_elem_of_filter, elem_of_affected. simpl.
  tauto.
Qed.

Lemma cancelEntry_data (q : QueryEntry) :
  state_data (cancelEntry q) = state_data q.
Proof. unfold cancelEntry. by destruct (fetchStatus q). Qed.

Lemma cancelEntry_not_fetching (q : QueryEntry) :
  fetchStatus (cancelEntry q) ≠ Fetching.
Proof.
  unfold cancelEntry. destruct (fetchStatus q) eqn:E; simpl; congruence.
Qed.

Lemma writeEntry_fetchStatus (u : option ListResponse → option ListResponse)
    (q : QueryEntry) :
  fetchStatus (writeEntry u q) = fetchStatus q.
Proof. unfold writeEntry. by destruct (u (state_data q)). Qed.

Lemma precedes_app (P Q : Event → bool) (l1 l2 : list Event) :
  (∀ e, e ∈ l1 → Q e = false) →
  (∀ e, e ∈ l2 → P e = false) →
  precedes P Q (l1 ++ l2).
Proof.
  intros H1 H2 i j a b Hi Hj Pa Qb.
  destruct (decide (j < length l1)%nat) as [Hj1|Hj1].
  - rewrite lookup_app_l in Hj by done.
    apply list_elem_of_lookup_2 in Hj. apply H1 in Hj. congruence.
  - destruct (decide (i < length l1)%nat) as [Hi1|Hi1]; [lia|].
    rewrite lookup_app_r in Hi by lia.
    apply list_elem_of_lookup_2 in Hi. apply H2 in Hi. congruence.
Qed.

(** ** The shape of a settled mutation *)

Ltac norm_events :=
  unfold eventsOf, cacheOf; simpl;
  repeat (rewrite <- app_assoc || rewrite app_nil_r || simpl);
  reflexivity.

(** A committed mutation: the request, then cancel, write, (toast,)
    invalidate, each over the store left by the step before. *)
Lemma run_committed (s : Submission)
    (u : option ListResponse → option ListResponse) (c : QueryCache) :
  updaterOf s = Some u →
  let fk := resourceKey s in
  let c1 := cacheOf (cancelQueries fk c) in
  let c2 := cacheOf (setQueriesData fk u c1) in
  cacheOf (run s c) = cacheOf (invalidateQueries fk predicate c2) ∧
  ∃ req mid tail,
    eventsOf (run s c) =
      (req :: eventsOf (cancelQueries fk c)) ++
      eventsOf (setQueriesData fk u c1) ++
      mid ++ eventsOf (invalidateQueries fk predicate c2) ++ tail ∧
    isRequest req = true ∧
    forallb isNotice mid = true ∧ forallb isNotice tail = true.
Proof.
  intros Hu; destruct s as [p o|p o|p o|p o]; destruct o as [r|e];
    simpl in Hu; inversion Hu; subst u; clear Hu; simpl;
    (split; [reflexivity|]).
  - eexists _, [_], []. split; [norm_events|done].
  - eexists _, [_], [_]. split; [norm_events|done].
  - eexists _, [_], []. split; [norm_events|done].
  - eexists _, [], []. split; [norm_events|done].
Qed.

(** A rejected mutation: the request, then only notices; the store is
    not touched. *)
Lemma run_rejected (s : Submission) (c : QueryCache) :
  failed s = true →
  cacheOf (run s c) = c ∧
  ∃ req tail,
    eventsOf (run s c) = req :: tail ∧
    isRequest req = true ∧ forallb isNotice tail = true.
Proof.
  intros Hf; destruct s as [p o|p o|p o|p o]; destruct o as [r|e];
    simpl in Hf; try discriminate;
    destruct e as [[[[[m]|]]|]];
    (split; [reflexivity|]); by eexists _, _.
Qed.

Lemma updaterOf_failed (s : Submission) :
  updaterOf s = None ↔ failed s = true.
Proof. by destruct s as [p o|p o|p o|p o]; destruct o. Qed.

Lemma cancel_events_kind (fk : QueryKey) (c : QueryCache) (e : Event) :
  e ∈ eventsOf (cancelQueries fk c) → ∃ k, e = EvCancel k.
Proof.
  unfold eventsOf; simpl. rewrite list_elem_of_fmap.
  intros (kq & -> & _); eauto.
Qed.

Lemma write_events_kind (fk : QueryKey)
    (u : option ListResponse → option ListResponse) (c : QueryCache)
    (e : Event) :
  e ∈ eventsOf (setQueriesData fk u c) → ∃ k, e = EvWrite k.
Proof.
  unfold eventsOf; simpl. rewrite list_elem_of_fmap.
  intros (kq & -> & _); eauto.
Qed.

Lemma invalidate_events_kind (fk : QueryKey) (p : QueryEntry → bool)
    (c : QueryCache) (e : Event) :
  e ∈ eventsOf (invalidateQueries fk p c) →
  (∃ k, e = EvInvalidate k) ∨ (∃ k, e = EvRefetch k).
Proof.
  unfold eventsOf; simpl. rewrite elem_of_app, !list_elem_of_fmap.
  intros [(kq & -> & _)|(kq & -> & _)]; eauto.
Qed.

Lemma notice_events_kind (l : list Event) (e : Event) :
  forallb isNotice l = true → e ∈ l → isNotice e = true.
Proof.
  intros Hl He. rewrite forallb_forall in Hl.
  apply Hl. by apply list_elem_of_In.
Qed.

(** What each part of a committed trace can and cannot contain. *)
Ltac event_kinds :=
  repeat match goal with
  | H : _ ∈ _ ++ _ |- _ => apply elem_of_app in H; destruct H as [H|H]
  | H : _ ∈ _ :: _ |- _ => apply elem_of_cons in H; destruct H as [H|H]
  | H : _ ∈ [] |- _ => by apply elem_of_nil in H
  | H : _ ∈ eventsOf (cancelQueries _ _) |- _ =>
      apply cancel_events_kind in H; destruct H as [? ->]
  | H : _ ∈ eventsOf (setQueriesData _ _ _) |- _ =>
      apply write_events_kind in H; destruct H as [? ->]
  | H : _ ∈ eventsOf (invalidateQueries _ _ _) |- _ =>
      apply invalidate_events_kind in H; destruct H as [[? ->]|[? ->]]
  | H : ?e ∈ ?l, F : forallb isNotice ?l = true |- _ =>
      apply (notice_events_kind _ _ F) in H
  end.

Ltac kind_false :=
  try done;
  match goal with
  | |- _ ?x = false => by destruct x
  end.

Lemma request_precedes_write (s : Submission) (c : QueryCache) :
  precedes isRequest isWrite (eventsOf (run s c)).
Proof.
  destruct (updaterOf s) as [u|] eqn:Hu.
  - destruct (run_committed s u c Hu) as (_ & req & mid & tail & -> & Hr & Hm & Ht).
    change (req :: ?l) with ([req] ++ l). rewrite <- app_assoc.
    apply precedes_app; intros e He; event_kinds; subst; kind_false.
  - apply updaterOf_failed in Hu.
    destruct (run_rejected s c Hu) as (_ & req & tail & -> & Hr & Ht).
    change (req :: tail) with ([req] ++ tail).
    apply precedes_app; intros e He; event_kinds; subst; kind_false.
Qed.

Lemma cancel_precedes_write (s : Submission) (c : QueryCache) :
  precedes isCancel isWrite (eventsOf (run s c)).
Proof.
  destruct (updaterOf s) as [u|] eqn:Hu.
  - destruct (run_committed s u c Hu) as (_ & req & mid & tail & -> & Hr & Hm & Ht).
    apply precedes_app; intros e He; event_kinds; subst; kind_false.
  - apply updaterOf_failed in Hu.
    destruct (run_rejected s c Hu) as (_ & req & tail & -> & Hr & Ht).
    change (req :: tail) with ([req] ++ tail).
    apply precedes_app; intros e He; event_kinds; subst; kind_false.
Qed.

Lemma no_store_event_when_rejected (s : Submission) (c : QueryCache) :
  failed s = true →
  existsb touchesStore (eventsOf (run s c)) = false.
Proof.
  intros Hf. destruct (run_rejected s c Hf) as (_ & req & tail & -> & Hr & Ht).
  apply not_true_is_false. rewrite existsb_exists.
  intros (e & He & Hs). apply list_elem_of_In in He.
  event_kinds; subst;
    match goal with H : touchesStore ?x = true |- _ => by destruct x end.
Qed.

Lemma settleFetch_discarded (k : QueryKey) (r : ListResponse) (now : nat)
    (c : QueryCache) (q : QueryEntry) :
  c !! k = Some q → fetchStatus q ≠ Fetching → settleFetch k r now c = c.
Proof.
  intros Hk Hq. unfold settleFetch. rewrite Hk.
  by destruct (fetchStatus q).
Qed.

(** ** C1: when the patch is applied *)

(** C1, the defect: the patch of a mutation is not applied before the
    network call, against what the hooks document ("Immediately
    updates the local cache ... Sends the update request to the
    server").  Adding a product to the scenario store issues the
    request first (event 0) and writes the unfiltered products entry
    only afterwards (event 4), when the server has answered. *)
Lemma C1_patch_before_request_counterexample :
  ¬ precedes isWrite isRequest
      (eventsOf (run Scenario.addDrone Scenario.store)).
Proof.
  intros H.
  specialize (H 4%nat 0%nat (EvWrite Scenario.allProducts)
                (EvRequest POST "/api/product/add")).
  assert (4 < 0)%nat; [|lia].
  apply H; by vm_compute.
Qed.

(** The defect is common to the four hooks: in every mutation the
    network call is the first thing that happens, every patch of the
    cached list data comes after it, in the success handler, and a
    mutation whose call fails writes nothing. *)
Lemma request_first_in_every_mutation (s : Submission) (c : QueryCache) :
  (∃ req rest, eventsOf (run s c) = req :: rest ∧ isRequest req = true) ∧
  precedes isRequest isWrite (eventsOf (run s c)) ∧
  failed s && existsb isWrite (eventsOf (run s c)) = false.
Proof.
  split; [|split].
  - destruct (updaterOf s) as [u|] eqn:Hu.
    + destruct (run_committed s u c Hu) as (_ & req & mid & tail & -> & Hr & _).
      simpl. eauto.
    + apply updaterOf_failed in Hu.
      destruct (run_rejected s c Hu) as (_ & req & tail & -> & Hr & _). eauto.
  - apply request_precedes_write.
  - destruct (failed s) eqn:Hf; [|done]. simpl.
    pose proof (no_store_event_when_rejected s c Hf) as Hn.
    apply not_true_is_false. rewrite existsb_exists.
    intros (e & He & Hw).
    apply not_true_iff_false in Hn. apply Hn. rewrite existsb_exists.
    exists e. split; [done|]. by destruct e.
Qed.

(** ** C2: a failed mutation leaves the store as it was *)

(** C2: for every mutation whose network call fails, the store after
    the mutation has settled equals the store before it was submitted;
    the error path cancels, writes and invalidates nothing. *)
Theorem C2_failure_leaves_cache (s : Submission) (c : QueryCache) :
  failed s = true →
  cacheOf (run s c) = c ∧
  existsb touchesStore (eventsOf (run s c)) = false.
Proof.
  intros Hf. split.
  - by destruct (run_rejected s c Hf).
  - by apply no_store_event_when_rejected.
Qed.

Lemma C2_failure_leaves_cache_witness :
  failed Scenario.deleteKiteRejected = true ∧
  cacheOf (run Scenario.deleteKiteRejected Scenario.store) = Scenario.store ∧
  existsb touchesStore
    (eventsOf (run Scenario.deleteKiteRejected Scenario.store)) = false.
Proof.
  split; [reflexivity|].
  apply (C2_failure_leaves_cache Scenario.deleteKiteRejected Scenario.store).
  reflexivity.
Defined.

(** ** C8: cancel, then write *)

(** C8: in the settlement of every mutation the in-flight fetches of
    all affected keys are cancelled before the patch is applied to
    them.  Every cancel event precedes every write event; each
    affected key is cancelled; the store the patch is applied to has
    no fetch in flight for the key; and once the patch is applied, the
    late result of a fetch started earlier is discarded. *)
Theorem C8_cancel_before_write (s : Submission)
    (u : option ListResponse → option ListResponse) (c : QueryCache)
    (k : QueryKey) (q : QueryEntry) (late : ListResponse) (now : nat) :
  updaterOf s = Some u →
  c !! k = Some q →
  matchKey (resourceKey s) k = true →
  let c1 := cacheOf (cancelQueries (resourceKey s) c) in
  let c2 := cacheOf (setQueriesData (resourceKey s) u c1) in
  precedes isCancel isWrite (eventsOf (run s c)) ∧
  EvCancel k ∈ eventsOf (run s c) ∧
  c1 !! k = Some (cancelEntry q) ∧
  fetchStatus (cancelEntry q) ≠ Fetching ∧
  c2 !! k = Some (writeEntry u (cancelEntry q)) ∧
  settleFetch k late now c2 = c2 ∧
  cacheOf (run s c) = cacheOf (invalidateQueries (resourceKey s) predicate c2).
Proof.
  intros Hu Hk Hm c1 c2.
  assert (H1 : c1 !! k = Some (cancelEntry q)).
  { subst c1. unfold cacheOf; simpl. by rewrite lookup_onAffected, Hk, Hm. }
  assert (H2 : c2 !! k = Some (writeEntry u (cancelEntry q))).
  { subst c2. unfold cacheOf at 1; simpl. by rewrite lookup_onAffected, H1, Hm. }
  destruct (run_committed s u c Hu) as (Hc & req & mid & tail & He & _).
  repeat split; try done.
  - apply cancel_precedes_write.
  - rewrite He. apply elem_of_app; left. apply elem_of_cons; right.
    unfold eventsOf; simpl. apply list_elem_of_fmap.
    exists (k, q). split; [done|]. by apply elem_of_affected.
  - apply cancelEntry_not_fetching.
  - apply (settleFetch_discarded _ _ _ _ _ H2).
    rewrite writeEntry_fetchStatus. apply cancelEntry_not_fetching.
Qed.

Lemma C8_cancel_before_write_witness :
  let s := Scenario.renameLamp in
  let u := editProductUpdater
             (Scenario.ok (Product.mk 5 "New" (inject_Z 120)
                                      [Scenario.electronics])) in
  let q := mkEntry
             (Some (Scenario.ok (Some [ProductRow Scenario.lamp;
                                       ProductRow Scenario.kite;
                                       ProductRow Scenario.robot])))
             Fetching false (Some 10%nat) 1 in
  let c1 := cacheOf (cancelQueries (resourceKey s) Scenario.store) in
  let c2 := cacheOf (setQueriesData (resourceKey s) u c1) in
  precedes isCancel isWrite (eventsOf (run s Scenario.store)) ∧
  EvCancel Scenario.allProducts ∈ eventsOf (run s Scenario.store) ∧
  c1 !! Scenario.allProducts = Some (cancelEntry q) ∧
  fetchStatus (cancelEntry q) ≠ Fetching ∧
  c2 !! Scenario.allProducts = Some (writeEntry u (cancelEntry q)) ∧
  settleFetch Scenario.allProducts (Scenario.ok (Some [])) 11 c2 = c2 ∧
  cacheOf (run s Scenario.store) =
    cacheOf (invalidateQueries (resourceKey s) predicate c2).
Proof.
  apply (C8_cancel_before_write Scenario.renameLamp _ Scenario.store
           Scenario.allProducts _ (Scenario.ok (Some [])) 11%nat);
    reflexivity.
Defined.

(** ** The entry a committed mutation leaves under an affected key *)

Lemma committed_lookup (s : Submission)
    (u : option ListResponse → option ListResponse) (c : QueryCache)
    (k : QueryKey) (q : QueryEntry) :
  updaterOf s = Some u →
  c !! k = Some q →
  cacheOf (run s c) !! k =
    Some (if matchKey (resourceKey s) k then
            let q2 := writeEntry u (cancelEntry q) in
            if predicate q2 then refetchEntry (markStale q2) else q2
          else q).
Proof.
  intros Hu Hk. destruct (run_committed s u c Hu) as (-> & _).
  unfold cacheOf; simpl. rewrite !lookup_onAffected, Hk. simpl.
  by destruct (matchKey (resourceKey s) k).
Qed.

Lemma cachedRows_Some (c : QueryCache) (k : QueryKey) (rows : list Row) :
  cachedRows c k = Some rows ↔
  ∃ (q : QueryEntry) (old : ListResponse),
    c !! k = Some q ∧ state_data q = Some old ∧ data old = Some rows.
Proof.
  unfold cachedRows. split.
  - destruct (c !! k) as [q|]; [|done].
    destruct (state_data q) as [old|] eqn:Hq; [|done]. eauto.
  - intros (q & old & -> & -> & Hd). done.
Qed.

Lemma committed_rows (s : Submission)
    (u : option ListResponse → option ListResponse) (c : QueryCache)
    (k : QueryKey) (rows rows' : list Row) :
  updaterOf s = Some u →
  matchKey (resourceKey s) k = true →
  cachedRows c k = Some rows →
  (∀ old : ListResponse, data old = Some rows →
          u (Some old) = Some (mkResponse (Some rows') (message old) (status old))) →
  cachedRows (cacheOf (run s c)) k = Some rows'.
Proof.
  intros Hu Hm Hrows Hupd.
  apply cachedRows_Some in Hrows as (q & old & Hk & Hq & Hd).
  apply cachedRows_Some.
  rewrite (committed_lookup s u c k q Hu Hk), Hm. simpl.
  assert (Hw : state_data (writeEntry u (cancelEntry q)) =
               Some (mkResponse (Some rows') (message old) (status old))).
  { unfold writeEntry. rewrite cancelEntry_data. rewrite Hq.
    rewrite (Hupd old Hd). done. }
  eexists _, _. split; [reflexivity|].
  unfold predicate. rewrite Hw. by split.
Qed.

(** ** C3: what a create puts in the list *)

(** C3, as stated, fails for the category instance: after adding the
    category "garden" the cached category list does not start with the
    new record. *)
Lemma C3_category_prepended_counterexample :
  ¬ ∃ rest,
      cachedRows (cacheOf (run Scenario.addGarden Scenario.store)) categoriesKey
      = Some (CategoryRow Scenario.garden :: rest).
Proof. intros (rest & H). vm_compute in H. discriminate. Qed.

Lemma add_prepends_rows (payload : AddProductPayload.t)
    (newProduct : Response Product.t) (c : QueryCache) (k : QueryKey)
    (rows : list Row) :
  matchKey productsKey k = true →
  cachedRows c k = Some rows →
  cachedRows (cacheOf (run (SubmitAddProduct payload (Fulfilled newProduct)) c)) k
    = Some (ProductRow (data newProduct) :: rows).
Proof.
  intros Hm Hrows. eapply committed_rows; [reflexivity|done|done|].
  intros old Hd. unfold addProductUpdater. by rewrite Hd.
Qed.

Lemma category_appends_rows (category : string)
    (newCategory : Response (list Category.t)) (c : QueryCache)
    (k : QueryKey) (rows : list Row) :
  matchKey categoriesKey k = true →
  cachedRows c k = Some rows →
  cachedRows (cacheOf (run (SubmitAddCategory category (Fulfilled newCategory)) c)) k
    = Some (rows ++ (CategoryRow <$> data newCategory)).
Proof.
  intros Hm Hrows. eapply committed_rows; [reflexivity|done|done|].
  intros old Hd. unfold addCategoryUpdater. by rewrite Hd.
Qed.

(** C3, amended: for every product create and every cached products
    entry that has data, the new record is put at index 0, followed by
    all previously cached records in their original order; for every
    category create and every cached categories entry that has data,
    all previously cached records stay first, in their original order,
    and the records of the server's response are appended after
    them. *)
Theorem C3_create_places_record :
  (∀ (payload : AddProductPayload.t) (newProduct : Response Product.t)
     (c : QueryCache) (k : QueryKey) (rows : list Row),
     matchKey productsKey k = true →
     cachedRows c k = Some rows →
     cachedRows
       (cacheOf (run (SubmitAddProduct payload (Fulfilled newProduct)) c)) k
     = Some (ProductRow (data newProduct) :: rows)) ∧
  (∀ (category : string) (newCategory : Response (list Category.t))
     (c : QueryCache) (k : QueryKey) (rows : list Row),
     matchKey categoriesKey k = true →
     cachedRows c k = Some rows →
     cachedRows
       (cacheOf (run (SubmitAddCategory category (Fulfilled newCategory)) c)) k
     = Some (rows ++ (CategoryRow <$> data newCategory))).
Proof.
  split.
  - intros payload newProduct c k rows. apply add_prepends_rows.
  - intros category newCategory c k rows. apply category_appends_rows.
Qed.

Lemma C3_create_places_record_witness :
  cachedRows
    (cacheOf (run Scenario.addDrone (delete categoriesKey Scenario.store)))
    Scenario.toyProducts
    = Some [ProductRow Scenario.drone; ProductRow Scenario.kite;
            ProductRow Scenario.robot] ∧
  cachedRows
    (cacheOf (run Scenario.addGarden Scenario.store)) categoriesKey
    = Some [CategoryRow Scenario.electronics; CategoryRow Scenario.toys;
            CategoryRow Scenario.garden].
Proof.
  split.
  - apply (proj1 C3_create_places_record
             (AddProductPayload.mk "Drone" [1] (Finite (inject_Z 900)))
             (Scenario.ok Scenario.drone)
             (delete categoriesKey Scenario.store) Scenario.toyProducts
             [ProductRow Scenario.kite; ProductRow Scenario.robot]);
      reflexivity.
  - apply (proj2 C3_create_places_record
             "garden" (Scenario.ok [Scenario.garden]) Scenario.store
             categoriesKey
             [CategoryRow Scenario.electronics; CategoryRow Scenario.toys]);
      reflexivity.
Defined.

(** ** C4: what a delete removes *)

(** The records a delete removes are those whose id is among the ids
    of the records in the server's response. *)
Lemma delete_removes_response_ids (X : Z)
    (deletedProduct : Response (list Product.t)) (c : QueryCache)
    (k : QueryKey) (rows : list Row) :
  matchKey productsKey k = true →
  cachedRows c k = Some rows →
  cachedRows (cacheOf (run (SubmitDeleteProduct X (Fulfilled deletedProduct)) c)) k
    = Some (filter (λ row, row_id row ∉ Product.id <$> data deletedProduct) rows).
Proof.
  intros Hm Hrows.
  eapply committed_rows; [reflexivity|done|done|].
  intros old Hd. unfold deleteProductUpdater. by rewrite Hd.
Qed.

(** C4, as stated, fails: the removal is keyed on the server's
    response, not on the id that was submitted.  When the delete of
    product 7 is answered with the remaining products (as the
    documentation of [deleteProduct] words its response), the entry
    does not become its prior records minus id 7. *)
Lemma C4_delete_by_id_counterexample :
  cachedRows (cacheOf (run Scenario.deleteKiteRemaining Scenario.store))
             Scenario.allProducts
  ≠ Some (filter (λ row, row_id row ≠ 7)
            [ProductRow Scenario.lamp; ProductRow Scenario.kite;
             ProductRow Scenario.robot]).
Proof. vm_compute. discriminate. Qed.

(** C4, amended: for every delete of a product with id X that the
    server answers with the deleted record(s), that is a non-empty
    list of records with id X, and for every cached products entry
    that has data, under any filter key, exactly the records with id X
    are removed and every other record is retained in its original
    order. *)
Theorem C4_delete_removes_id (X : Z)
    (deletedProduct : Response (list Product.t)) (c : QueryCache)
    (k : QueryKey) (rows : list Row) :
  data deletedProduct ≠ [] →
  Forall (λ p, Product.id p = X) (data deletedProduct) →
  matchKey productsKey k = true →
  cachedRows c k = Some rows →
  cachedRows (cacheOf (run (SubmitDeleteProduct X (Fulfilled deletedProduct)) c)) k
    = Some (filter (λ row, row_id row ≠ X) rows).
Proof.
  intros Hne Hall Hm Hrows.
  rewrite (delete_removes_response_ids X deletedProduct c k rows Hm Hrows).
  f_equal. apply list_filter_iff. intros row.
  rewrite list_elem_of_fmap. split.
  - intros Hnot HX. destruct (data deletedProduct) as [|p ps]; [done|].
    apply Forall_cons in Hall as [Hp _].
    apply Hnot. exists p. split; [congruence|]. apply elem_of_cons; by left.
  - intros Hrow (p & Hid & Hp).
    rewrite Forall_forall in Hall. apply Hrow. rewrite Hid. by apply Hall.
Qed.

Lemma C4_delete_removes_id_witness :
  cachedRows (cacheOf (run Scenario.deleteKite Scenario.store))
             Scenario.allProducts
    = Some [ProductRow Scenario.lamp; ProductRow Scenario.robot] ∧
  cachedRows (cacheOf (run Scenario.deleteKite Scenario.store))
             Scenario.toyProducts
    = Some [ProductRow Scenario.robot].
Proof.
  split.
  - apply (C4_delete_removes_id 7 (Scenario.ok [Scenario.kite]) Scenario.store
             Scenario.allProducts
             [ProductRow Scenario.lamp; ProductRow Scenario.kite;
              ProductRow Scenario.robot]);
      [discriminate | repeat constructor | reflexivity | reflexivity].
  - apply (C4_delete_removes_id 7 (Scenario.ok [Scenario.kite]) Scenario.store
             Scenario.toyProducts
             [ProductRow Scenario.kite; ProductRow Scenario.robot]);
      [discriminate | repeat constructor | reflexivity | reflexivity].
Defined.

(** ** C5: what an update replaces *)

(** C5: for every update and every cached products entry that has
    data, the list keeps its length and order; at each index the
    record whose id equals the id of the server's record is replaced
    by that record as a whole, and any other record is unchanged. *)
Theorem C5_update_replaces_record
    (payload : EditProductPayload.t) (newProduct : Response Product.t)
    (c : QueryCache) (k : QueryKey) (rows : list Row) (i : nat) (row : Row) :
  matchKey productsKey k = true →
  cachedRows c k = Some rows →
  rows !! i = Some row →
  ∃ rows',
    cachedRows (cacheOf (run (SubmitEditProduct payload (Fulfilled newProduct)) c)) k
      = Some rows' ∧
    length rows' = length rows ∧
    rows' !! i =
      Some (if bool_decide (row_id row = Product.id (data newProduct))
            then ProductRow (data newProduct) else row).
Proof.
  intros Hm Hrows Hi. eexists. split; [|split].
  - eapply committed_rows; [reflexivity|done|done|].
    intros old Hd. unfold editProductUpdater. by rewrite Hd.
  - by rewrite length_fmap.
  - by rewrite list_lookup_fmap, Hi.
Qed.

Lemma C5_update_replaces_record_witness :
  ∃ rows',
    cachedRows (cacheOf (run Scenario.renameLamp Scenario.store))
               Scenario.allProducts = Some rows' ∧
    length rows' = 3%nat ∧
    rows' !! 0%nat =
      Some (ProductRow (Product.mk 5 "New" (inject_Z 120) [Scenario.electronics])).
Proof.
  apply (C5_update_replaces_record
           (EditProductPayload.mk 5 "New" [1] (Finite (inject_Z 120)))
           (Scenario.ok (Product.mk 5 "New" (inject_Z 120) [Scenario.electronics]))
           Scenario.store Scenario.allProducts
           [ProductRow Scenario.lamp; ProductRow Scenario.kite;
            ProductRow Scenario.robot] 0%nat (ProductRow Scenario.lamp));
    reflexivity.
Defined.

(** ** C9: entries without data *)

Lemma updater_noData (s : Submission)
    (u : option ListResponse → option ListResponse)
    (oldData : option ListResponse) :
  updaterOf s = Some u → noData oldData = true → u oldData = oldData.
Proof.
  intros Hu Hn.
  destruct s as [p o|p o|p o|p o]; destruct o as [r|e];
    simpl in Hu; inversion Hu; subst u; clear Hu;
    destruct oldData as [old|]; try done;
    unfold addProductUpdater, editProductUpdater, deleteProductUpdater,
      addCategoryUpdater; simpl in Hn; by destruct (data old).
Qed.

Lemma writeEntry_noData (s : Submission)
    (u : option ListResponse → option ListResponse) (q : QueryEntry) :
  updaterOf s = Some u → noData (state_data q) = true → writeEntry u q = q.
Proof.
  intros Hu Hn. unfold writeEntry.
  rewrite (updater_noData s u _ Hu Hn).
  destruct q as [[old|] f st l n]; done.
Qed.

(** C9: for the updater of every mutation and every cached entry whose
    data is absent (no cached value, or a cached response without a
    data field), the updater returns the old value unchanged; the
    write leaves every field of the entry as it was, and after the
    whole mutation the entry still holds the same, absent, data. *)
Theorem C9_absent_data_untouched (s : Submission)
    (u : option ListResponse → option ListResponse) (c : QueryCache)
    (k : QueryKey) (q : QueryEntry) :
  updaterOf s = Some u →
  c !! k = Some q →
  noData (state_data q) = true →
  u (state_data q) = state_data q ∧
  writeEntry u q = q ∧
  cacheOf (setQueriesData (resourceKey s) u c) !! k = Some q ∧
  state_data <$> cacheOf (run s c) !! k = Some (state_data q).
Proof.
  intros Hu Hk Hn. repeat split.
  - by apply (updater_noData s).
  - by apply (writeEntry_noData s).
  - unfold cacheOf; simpl. rewrite lookup_onAffected, Hk. simpl.
    rewrite (writeEntry_noData s u q Hu Hn).
    by destruct (matchKey (resourceKey s) k).
  - rewrite (committed_lookup s u c k q Hu Hk). simpl.
    destruct (matchKey (resourceKey s) k); [|done].
    rewrite (writeEntry_noData s u (cancelEntry q) Hu)
      by (by rewrite cancelEntry_data).
    destruct (predicate (cancelEntry q)).
    + unfold refetchEntry. destruct (isActive _); simpl;
        by rewrite cancelEntry_data.
    + by rewrite cancelEntry_data.
Qed.

Lemma C9_absent_data_untouched_witness :
  let u := addProductUpdater (Scenario.ok Scenario.drone) in
  let q := mkEntry None Fetching false None 1 in
  u (state_data q) = state_data q ∧
  writeEntry u q = q ∧
  cacheOf (setQueriesData (resourceKey Scenario.addDrone) u Scenario.store)
    !! Scenario.gardenProducts = Some q ∧
  state_data <$> cacheOf (run Scenario.addDrone Scenario.store)
    !! Scenario.gardenProducts = Some (state_data q).
Proof.
  apply (C9_absent_data_untouched Scenario.addDrone
           (addProductUpdater (Scenario.ok Scenario.drone)) Scenario.store
           Scenario.gardenProducts (mkEntry None Fetching false None 1));
    reflexivity.
Defined.

(** ** C6: which keys a committed mutation invalidates *)

Lemma invalidate_event_iff (fk : QueryKey) (p : QueryEntry → bool)
    (c : QueryCache) (k : QueryKey) :
  EvInvalidate k ∈ eventsOf (invalidateQueries fk p c) ↔
  ∃ q, c !! k = Some q ∧ matchKey fk k = true ∧ p q = true.
Proof.
  unfold eventsOf; simpl. rewrite elem_of_app, !list_elem_of_fmap. split.
  - intros [((k' & q) & Hk & Hin)|(kq & Hk & _)]; [|done].
    simpl in Hk. inversion Hk; subst k'.
    apply elem_of_selected in Hin. eauto.
  - intros (q & Hin). left. exists (k, q). split; [done|].
    by apply elem_of_selected.
Qed.

Lemma refetch_event_iff (fk : QueryKey) (p : QueryEntry → bool)
    (c : QueryCache) (k : QueryKey) :
  EvRefetch k ∈ eventsOf (invalidateQueries fk p c) ↔
  ∃ q, c !! k = Some q ∧ matchKey fk k = true ∧ p q = true ∧
       isActive q = true.
Proof.
  unfold eventsOf; simpl. rewrite elem_of_app, !list_elem_of_fmap. split.
  - intros [(kq & Hk & _)|((k' & q) & Hk & Hin)]; [done|].
    simpl in Hk. inversion Hk; subst k'.
    apply list_elem_of_filter in Hin as [Ha Hin]. simpl in Ha.
    apply elem_of_selected in Hin as (Hq & Hm & Hp). eauto 10.
  - intros (q & Hk & Hm & Hp & Ha). right. exists (k, q). split; [done|].
    apply list_elem_of_filter. split; [done|]. by apply elem_of_selected.
Qed.

(** In a committed trace only the invalidation step invalidates and
    refetches. *)
Lemma committed_invalidation_events (s : Submission)
    (u : option ListResponse → option ListResponse) (c : QueryCache)
    (e : Event) :
  updaterOf s = Some u →
  isInvalidate e || isRefetch e = true →
  e ∈ eventsOf (run s c) ↔
  e ∈ eventsOf (invalidateQueries (resourceKey s) predicate
                  (cacheOf (setQueriesData (resourceKey s) u
                     (cacheOf (cancelQueries (resourceKey s) c))))).
Proof.
  intros Hu Hkind.
  destruct (run_committed s u c Hu) as (_ & req & mid & tail & -> & Hr & Hm & Ht).
  split.
  - intros He.
    apply elem_of_app in He as [He|He];
      [|apply elem_of_app in He as [He|He];
        [|apply elem_of_app in He as [He|He];
          [|apply elem_of_app in He as [He|He]; [done|]]]];
      event_kinds; subst; simpl in *; try done;
      match goal with
      | H : isInvalidate ?x || isRefetch ?x = true |- _ => by destruct x
      end.
  - intros He. rewrite !elem_of_app. eauto.
Qed.

Lemma settled_entry_flags (fk k : QueryKey) (q2 q' : QueryEntry) :
  q' = (if matchKey fk k then
          if predicate q2 then refetchEntry (markStale q2) else q2
        else q2) →
  predicate q' = predicate q2 ∧ isActive q' = isActive q2.
Proof.
  intros ->. destruct (matchKey fk k); [|done].
  destruct (predicate q2) eqn:Hp; [|done].
  unfold refetchEntry. destruct (isActive (markStale q2)) eqn:Ha; by simpl.
Qed.

(** C6: after a mutation commits, a cached key is invalidated exactly
    when it belongs to the resource of the mutation and its entry
    holds no data, and it is refetched at once exactly when, in
    addition, it is subscribed to.  A key that holds data, such as the
    one just updated with the committed record, is therefore neither
    invalidated nor refetched. *)
Theorem C6_invalidation_targets (s : Submission)
    (u : option ListResponse → option ListResponse) (c : QueryCache)
    (k : QueryKey) (q' : QueryEntry) :
  updaterOf s = Some u →
  cacheOf (run s c) !! k = Some q' →
  bool_decide (EvInvalidate k ∈ eventsOf (run s c))
    = matchKey (resourceKey s) k && predicate q' ∧
  bool_decide (EvRefetch k ∈ eventsOf (run s c))
    = matchKey (resourceKey s) k && predicate q' && isActive q'.
Proof.
  intros Hu Hfinal.
  destruct (run_committed s u c Hu) as (Hc & _).
  set (c2 := cacheOf (setQueriesData (resourceKey s) u
                        (cacheOf (cancelQueries (resourceKey s) c)))) in *.
  rewrite Hc in Hfinal. unfold cacheOf at 1 in Hfinal; simpl in Hfinal.
  rewrite lookup_onAffected in Hfinal.
  destruct (c2 !! k) as [q2|] eqn:H2; [|done].
  simpl in Hfinal. injection Hfinal as Hq'. symmetry in Hq'.
  destruct (settled_entry_flags _ _ _ _ Hq') as [Hp Ha].
  rewrite Hp, Ha. clear Hq' Hp Ha.
  split.
  - rewrite (bool_decide_ext _ _
               (committed_invalidation_events s u c (EvInvalidate k) Hu eq_refl)).
    fold c2.
    destruct (matchKey (resourceKey s) k && predicate q2) eqn:E.
    + apply bool_decide_eq_true_2, invalidate_event_iff.
      apply andb_true_iff in E as [Hm Hp]. eauto.
    + apply bool_decide_eq_false_2. rewrite invalidate_event_iff.
      intros (q & Hq & Hm & Hp). rewrite H2 in Hq. inversion Hq; subst q.
      by rewrite Hm, Hp in E.
  - rewrite (bool_decide_ext _ _
               (committed_invalidation_events s u c (EvRefetch k) Hu eq_refl)).
    fold c2.
    destruct (matchKey (resourceKey s) k && predicate q2 && isActive q2) eqn:E.
    + apply bool_decide_eq_true_2, refetch_event_iff.
      apply andb_true_iff in E as [E Hact].
      apply andb_true_iff in E as [Hm Hp]. eauto 10.
    + apply bool_decide_eq_false_2. rewrite refetch_event_iff.
      intros (q & Hq & Hm & Hp & Hact). rewrite H2 in Hq.
      inversion Hq; subst q. by rewrite Hm, Hp, Hact in E.
Qed.

Lemma C6_invalidation_targets_witness :
  (bool_decide (EvInvalidate Scenario.allProducts
                  ∈ eventsOf (run Scenario.addDrone Scenario.store)) = false ∧
   bool_decide (EvRefetch Scenario.allProducts
                  ∈ eventsOf (run Scenario.addDrone Scenario.store)) = false) ∧
  (bool_decide (EvInvalidate Scenario.gardenProducts
                  ∈ eventsOf (run Scenario.addDrone Scenario.store)) = true ∧
   bool_decide (EvRefetch Scenario.gardenProducts
                  ∈ eventsOf (run Scenario.addDrone Scenario.store)) = true).
Proof.
  split.
  - apply (C6_invalidation_targets Scenario.addDrone
             (addProductUpdater (Scenario.ok Scenario.drone)) Scenario.store
             Scenario.allProducts
             (mkEntry
                (Some (Scenario.ok (Some [ProductRow Scenario.drone;
                                          ProductRow Scenario.lamp;
                                          ProductRow Scenario.kite;
                                          ProductRow Scenario.robot])))
                Idle false (Some 10%nat) 1));
      reflexivity.
  - apply (C6_invalidation_targets Scenario.addDrone
             (addProductUpdater (Scenario.ok Scenario.drone)) Scenario.store
             Scenario.gardenProducts
             (mkEntry None Fetching true None 1));
      reflexivity.
Defined.

(** ** C7: notifications *)

Lemma notifications_app (l1 l2 : list Event) :
  notifications (l1 ++ l2) = notifications l1 ++ notifications l2.
Proof. apply filter_app. Qed.

Lemma notifications_cons (e : Event) (l : list Event) :
  notifications (e :: l) =
  if isToast e then e :: notifications l else notifications l.
Proof.
  unfold notifications. rewrite filter_cons.
  destruct (isToast e); by case_decide.
Qed.

Lemma notifications_fmap_nil {A} (f : A → Event) (l : list A) :
  (∀ x, isToast (f x) = false) → notifications (f <$> l) = [].
Proof.
  intros Hf. induction l as [|x l IH]; [done|].
  rewrite fmap_cons, notifications_cons, Hf. exact IH.
Qed.

Ltac notifications_of_run :=
  unfold eventsOf; simpl;
  repeat (rewrite notifications_app || rewrite notifications_cons
          || rewrite notifications_fmap_nil by done);
  simpl.

(** C7, as stated, fails for the category instance: a category create
    that is rejected, and one that commits, reach the notification
    collaborator with no signal at all. *)
Lemma C7_category_notification_counterexample :
  length (notifications
            (eventsOf (run Scenario.addGardenRejected Scenario.store))) ≠ 1%nat ∧
  length (notifications
            (eventsOf (run Scenario.addGarden Scenario.store))) ≠ 1%nat.
Proof. split; vm_compute; discriminate. Qed.

(** The slip in the error handlers of the product hooks: on a failure
    whose response has no body, reading the message throws before
    [toast.error] is called, and no notification is emitted. *)
Lemma no_toast_when_message_throws (s : Submission) (c : QueryCache) :
  onErrorThrows s = true → notifications (eventsOf (run s c)) = [].
Proof.
  destruct s as [p o|p o|p o|p o]; destruct o as [r|e]; try done;
    destruct e as [[[[[m]|]]|]]; try done; intros _; by notifications_of_run.
Qed.

(** C7, amended: every product mutation (create, edit, delete) that
    settles emits exactly one notification: one success toast when it
    commits, or, when its call fails with no response or with a
    response that has a body, one error toast titled "Failed" whose
    description is the message of that body, and is absent when there
    is none.  The category create emits no notification, whether it
    commits or fails. *)
Theorem C7_one_toast_per_product_mutation (s : Submission) (c : QueryCache) :
  onErrorThrows s = false →
  (isProductMutation s = false ∧ notifications (eventsOf (run s c)) = []) ∨
  (isProductMutation s = true ∧
   ∃ n, notifications (eventsOf (run s c)) = [n] ∧
        match rejectionOf s with
        | Some reason =>
            ∃ description,
              responseMessage reason = Returned description ∧
              n = EvToastError "Failed" description
        | None => ∃ description, n = EvToastSuccess "Success" description
        end).
Proof.
  intros Hthrows.
  destruct s as [p o|p o|p o|p o]; destruct o as [r|e];
    try destruct e as [[[[[m]|]]|]]; try discriminate Hthrows;
    first
      [ left; split; [reflexivity|]; by notifications_of_run
      | right; split; [reflexivity|];
        eexists; split; [notifications_of_run; reflexivity|];
        simpl; eauto ].
Qed.

Lemma C7_one_toast_per_product_mutation_witness :
  (isProductMutation Scenario.deleteKiteRejected = false ∧
   notifications
     (eventsOf (run Scenario.deleteKiteRejected Scenario.store)) = []) ∨
  (isProductMutation Scenario.deleteKiteRejected = true ∧
   ∃ n, notifications
          (eventsOf (run Scenario.deleteKiteRejected Scenario.store)) = [n] ∧
        ∃ description,
          responseMessage (mkAxiosError None) = Returned description ∧
          n = EvToastError "Failed" description).
Proof.
  apply (C7_one_toast_per_product_mutation Scenario.deleteKiteRejected
           Scenario.store).
  reflexivity.
Defined.

(** ** C10: the price of a submitted payload *)

Lemma parseDigits_nonneg (s : string) (acc : Z) :
  0 ≤ acc → 0 ≤ parseDigits acc s.
Proof.
  revert acc. induction s as [|a s IH]; intros acc Hacc; simpl; [done|].
  destruct (isDigit a) eqn:Ha; [|done].
  apply IH. unfold isDigit in Ha. apply bool_decide_eq_true_1 in Ha.
  unfold digitValue. lia.
Qed.



Lemma priceOnChange_parse (typed : string) :
  priceOnChange typed = toNumber (parseDigits 0 (replaceNonDigits typed)).
Proof.
  unfold priceOnChange.
  destruct (String.eqb (replaceNonDigits typed) EmptyString) eqn:E; [|done].
  apply String.eqb_eq in E. by rewrite E.
Qed.

Lemma parseDigits_digitsOf (s : string) (acc : Z) :
  parseDigits acc (replaceNonDigits s)
  = fold_left (λ acc d, 10 * acc + d) (digitsOf s) acc.
Proof.
  revert acc. induction s as [|a s IH]; intros acc; [done|]. simpl.
  destruct (isDigit a) eqn:Ha; [|apply IH].
  simpl. rewrite Ha. apply IH.
Qed.

Lemma priceOnChange_digits (typed : string) :
  priceOnChange typed = toNumber (decimalValue (digitsOf typed)).
Proof.
  rewrite priceOnChange_parse. unfold decimalValue.
  by rewrite parseDigits_digitsOf.
Qed.

Lemma decimalValue_nonneg (typed : string) :
  0 ≤ decimalValue (digitsOf typed).
Proof.
  unfold decimalValue. rewrite <- parseDigits_digitsOf.
  by apply parseDigits_nonneg.
Qed.

Lemma isNonNegativeInteger_inject_Z (n : Z) :
  0 ≤ n → isNonNegativeInteger (Finite (inject_Z n)) = true.
Proof.
  intros Hn. unfold isNonNegativeInteger, inject_Z. simpl.
  rewrite Z.mod_1_r. apply andb_true_iff. split; [|done].
  by apply Z.leb_le.
Qed.

(** Up to 2^53 the Number value of an integer is the integer. *)
Lemma toNumber_exact (n : Z) :
  n ≤ 2 ^ 53 → toNumber n = Finite (inject_Z n).
Proof.
  intros Hn. unfold toNumber.
  destruct (n <=? 2 ^ 53) eqn:E; [done|]. apply Z.leb_gt in E. lia.
Qed.

(** The Number value of a non-negative integer is a non-negative
    integer or [Infinity]. *)
Lemma toNumber_kind (n : Z) :
  0 ≤ n →
  isNonNegativeInteger (toNumber n) || isInfinity (toNumber n) = true.
Proof.
  intros Hn. unfold toNumber.
  destruct (n <=? 2 ^ 53) eqn:E.
  - by rewrite isNonNegativeInteger_inject_Z.
  - apply Z.leb_gt in E. cbv zeta.
    set (e := Z.log2 n - 52).
    assert (He : 1 ≤ e).
    { pose proof (Z.log2_le_mono (2 ^ 53) n ltac:(lia)) as Hl.
      rewrite Z.log2_pow2 in Hl by lia. lia. }
    assert (Hp : 0 < 2 ^ e) by (apply Z.pow_pos_nonneg; lia).
    assert (Hq : 0 ≤ n / 2 ^ e) by (apply Z.div_pos; lia).
    set (q' := if n mod 2 ^ e <? 2 ^ (e - 1) then n / 2 ^ e
               else if 2 ^ (e - 1) <? n mod 2 ^ e then n / 2 ^ e + 1
               else if Z.even (n / 2 ^ e) then n / 2 ^ e else n / 2 ^ e + 1).
    assert (Hq' : 0 ≤ q').
    { subst q'. repeat case_match; lia. }
    destruct (q' * 2 ^ e <? 2 ^ 1024); [|done].
    rewrite isNonNegativeInteger_inject_Z; [done|].
    apply Z.mul_nonneg_nonneg; lia.
Qed.

Lemma priceOnChange_kind (typed : string) :
  isNonNegativeInteger (priceOnChange typed)
  || isInfinity (priceOnChange typed) = true.
Proof.
  rewrite priceOnChange_digits. apply toNumber_kind, decimalValue_nonneg.
Qed.

Lemma fold_changes_price (changes : list FieldChange)
    (data0 : AddProductSchema.t) :
  let data' := fold_left applyChange changes data0 in
  if priceEdited changes
  then isNonNegativeInteger (AddProductSchema.price data')
       || isInfinity (AddProductSchema.price data') = true
  else AddProductSchema.price data' = AddProductSchema.price data0.
Proof.
  revert data0. induction changes as [|ch changes IH]; intros data0; [done|].
  specialize (IH (applyChange data0 ch)). cbv zeta in *.
  change (fold_left applyChange (ch :: changes) data0)
    with (fold_left applyChange changes (applyChange data0 ch)).
  destruct ch as [v|typed|v]; try exact IH.
  change (priceEdited (ChangePrice typed :: changes)) with true.
  destruct (priceEdited changes); [exact IH|].
  rewrite IH.
  change (AddProductSchema.price (applyChange data0 (ChangePrice typed)))
    with (priceOnChange typed).
  apply priceOnChange_kind.
Qed.

(** C10, as stated, fails twice.  A payload can carry a price that
    never went through the price field: editing the product "Kite",
    whose price is 19.99, and changing only its name submits the edit
    mutation with price 19.99, which is not an integer.  And the price
    field itself does not always store an integer: 309 nines are
    beyond the largest double, and [parseInt] gives [Infinity]. *)
Lemma C10_untouched_price_counterexample :
  let props := mkProps (Some Scenario.kite) in
  (∃ call,
     onSubmit PriceAtLeastOne props (formAfter props [ChangeName "Kite 2"])
       = Some call ∧
     isNonNegativeInteger (payloadPrice call) = false) ∧
  isNonNegativeInteger (priceOnChange Scenario.nines) = false.
Proof.
  split; [eexists; split; reflexivity|]. by vm_compute.
Qed.

(** C10, amended: for every string typed into the price field, all
    characters that are not digits are stripped and the digits that
    remain are parsed: the stored price is the JavaScript number of
    their decimal value, 0 when none remains; it is a non-negative
    integer or [Infinity], and it is exactly the integer the digits
    denote whenever that integer is at most 2^53 (so "12.50" gives
    1250).  A payload is submitted only when the schema accepts the
    form, so its price, the price of the form, is never below the
    minimum of the schema; it is a non-negative integer or [Infinity]
    when the price field was edited, and otherwise it is the price the
    form started with (the price of the edited product, or 0 for a new
    product). *)
Theorem C10_submitted_price :
  (∀ typed : string,
     priceOnChange typed = toNumber (decimalValue (digitsOf typed)) ∧
     isNonNegativeInteger (priceOnChange typed)
     || isInfinity (priceOnChange typed) = true) ∧
  (∀ typed : string,
     decimalValue (digitsOf typed) ≤ 2 ^ 53 →
     priceOnChange typed = Finite (inject_Z (decimalValue (digitsOf typed))) ∧
     isNonNegativeInteger (priceOnChange typed) = true) ∧
  priceOnChange "12.50" = Finite (inject_Z 1250) ∧
  priceOnChange EmptyString = Finite (inject_Z 0) ∧
  (∀ (rev : SchemaRevision) (props : AddEditProductFormProps)
     (changes : list FieldChange) (call : MutationCall),
     onSubmit rev props (formAfter props changes) = Some call →
     payloadPrice call = AddProductSchema.price (formAfter props changes) ∧
     numberMin (priceMinimum rev) (payloadPrice call) = true ∧
     (if priceEdited changes
      then isNonNegativeInteger (payloadPrice call)
           || isInfinity (payloadPrice call) = true
      else payloadPrice call
           = Finite (from_option Product.price (inject_Z 0) (product props)))).
Proof.
  split; [|split; [|split; [|split]]].
  - intros typed. split; [apply priceOnChange_digits|apply priceOnChange_kind].
  - intros typed Hbound.
    rewrite priceOnChange_digits, (toNumber_exact _ Hbound).
    split; [done|]. apply isNonNegativeInteger_inject_Z, decimalValue_nonneg.
  - reflexivity.
  - reflexivity.
  - intros rev props changes call Hsubmit.
    assert (Hprice : payloadPrice call
                     = AddProductSchema.price (formAfter props changes) ∧
                     numberMin (priceMinimum rev) (payloadPrice call) = true).
    { unfold onSubmit in Hsubmit.
      destruct (AddProductZodSchema rev (formAfter props changes)) eqn:Hz;
        [|done].
      unfold AddProductZodSchema in Hz.
      apply andb_true_iff in Hz as [Hz _]. apply andb_true_iff in Hz as [_ Hz].
      simpl in Hsubmit.
      destruct (product props); injection Hsubmit as <-; by simpl. }
    destruct Hprice as [Heq Hmin].
    do 2 (split; [done|]).
    rewrite Heq. exact (fold_changes_price changes (defaultValues props)).
Qed.

Lemma C10_submitted_price_witness :
  let props := mkProps (Some Scenario.lamp) in
  let changes := [ChangePrice "12.50"] in
  let call :=
    EditProductMutation
      (EditProductPayload.mk 5 "Old" [1] (Finite (inject_Z 1250))) in
  (priceOnChange "1,299 PHP" = Finite (inject_Z 1299) ∧
   isNonNegativeInteger (priceOnChange "1,299 PHP") = true) ∧
  (payloadPrice call = AddProductSchema.price (formAfter props changes) ∧
   numberMin (priceMinimum PriceAtLeastOne) (payloadPrice call) = true ∧
   isNonNegativeInteger (payloadPrice call)
   || isInfinity (payloadPrice call) = true).
Proof.
  split.
  - apply (proj1 (proj2 C10_submitted_price) "1,299 PHP"). by vm_compute.
  - apply (proj2 (proj2 (proj2 (proj2 C10_submitted_price)))
             PriceAtLeastOne (mkProps (Some Scenario.lamp))
             [ChangePrice "12.50"]
             (EditProductMutation
                (EditProductPayload.mk 5 "Old" [1] (Finite (inject_Z 1250))))).
    reflexivity.
Defined.

(** * Further properties of the code *)

(** ** Selecting categories *)

Lemma isSelected_app (l1 l2 : list Category.t) (c : Category.t) :
  isSelected (l1 ++ l2) c = isSelected l1 c || isSelected l2 c.
Proof. unfold isSelected. apply existsb_app. Qed.

Lemma isSelected_cons (x : Category.t) (l : list Category.t)
    (c : Category.t) :
  isSelected (x :: l) c =
  bool_decide (Category.id x = Category.id c) || isSelected l c.
Proof. reflexivity. Qed.

Lemma isSelected_filter (l : list Category.t) (c c' : Category.t) :
  isSelected (filter (λ cat, Category.id cat ≠ Category.id c) l) c' =
  if bool_decide (Category.id c' = Category.id c) then false
  else isSelected l c'.
Proof.
  induction l as [|x l IH].
  - rewrite filter_nil. by case_bool_decide.
  - destruct (decide (Category.id x = Category.id c)) as [Hx|Hx].
    + rewrite filter_cons_False by (intros H; by apply H).
      rewrite isSelected_cons, IH.
      case_bool_decide as Hc; [done|].
      rewrite bool_decide_eq_false_2; [done|congruence].
    + rewrite filter_cons_True by done.
      rewrite !isSelected_cons, IH. case_bool_decide as Hc; [|done].
      rewrite bool_decide_eq_false_2; [done|congruence].
Qed.

Lemma filter_unselected (l : list Category.t) (c : Category.t) :
  isSelected l c = false →
  filter (λ cat, Category.id cat ≠ Category.id c) l = l.
Proof.
  induction l as [|x l IH]; [done|]. rewrite isSelected_cons.
  intros H. apply orb_false_iff in H as [Hx Hl].
  apply bool_decide_eq_false_1 in Hx.
  rewrite filter_cons_True by done. by rewrite IH.
Qed.

(** X1: choosing a category in the filter flips the selection state of
    that category (by id) and of no other. *)
Theorem X1_toggle_flips_one (selectedCategories : list Category.t)
    (category other : Category.t) :
  isSelected (handleCategoryChange selectedCategories category) other =
  if bool_decide (Category.id other = Category.id category)
  then negb (isSelected selectedCategories category)
  else isSelected selectedCategories other.
Proof.
  unfold handleCategoryChange.
  destruct (isSelected selectedCategories category) eqn:Hsel.
  - rewrite isSelected_filter. by case_bool_decide.
  - rewrite isSelected_app, isSelected_cons. simpl. rewrite orb_false_r.
    destruct (decide (Category.id other = Category.id category)) as [Hid|Hid].
    + rewrite !bool_decide_eq_true_2 by done. by rewrite orb_true_r.
    + rewrite !bool_decide_eq_false_2 by congruence. by rewrite orb_false_r.
Qed.

(** X2: choosing a category that is not selected and choosing it again
    gives back the selection one started from, order included. *)
Theorem X2_toggle_twice (selectedCategories : list Category.t)
    (category : Category.t) :
  isSelected selectedCategories category = false →
  handleCategoryChange
    (handleCategoryChange selectedCategories category) category
  = selectedCategories.
Proof.
  intros Hsel. unfold handleCategoryChange at 2. rewrite Hsel.
  unfold handleCategoryChange.
  rewrite isSelected_app, Hsel. simpl.
  rewrite bool_decide_eq_true_2 by done. simpl.
  rewrite filter_app, filter_unselected by done.
  rewrite filter_cons_False by (intros H; by apply H).
  by rewrite filter_nil, app_nil_r.
Qed.

Lemma X2_toggle_twice_witness :
  handleCategoryChange
    (handleCategoryChange [Scenario.electronics] Scenario.toys) Scenario.toys
  = [Scenario.electronics].
Proof.
  apply (X2_toggle_twice [Scenario.electronics] Scenario.toys). reflexivity.
Defined.

Lemma isSelected_false_not_in (l : list Category.t) (c : Category.t) :
  isSelected l c = false → Category.id c ∉ Category.id <$> l.
Proof.
  induction l as [|x l IH]; intros H.
  - apply not_elem_of_nil.
  - rewrite isSelected_cons in H. apply orb_false_iff in H as [Hx Hl].
    apply bool_decide_eq_false_1 in Hx.
    rewrite fmap_cons. apply not_elem_of_cons. split; [congruence|by apply IH].
Qed.

(** X3: a selection in which no two categories share an id stays so
    after any choice in the filter. *)
Theorem X3_toggle_keeps_ids_unique (selectedCategories : list Category.t)
    (category : Category.t) :
  NoDup (Category.id <$> selectedCategories) →
  NoDup (Category.id <$> handleCategoryChange selectedCategories category).
Proof.
  intros Hnd. unfold handleCategoryChange.
  destruct (isSelected selectedCategories category) eqn:Hsel.
  - clear Hsel. induction selectedCategories as [|x l IH]; [done|].
    rewrite fmap_cons in Hnd. apply NoDup_cons in Hnd as [Hx Hl].
    destruct (decide (Category.id x = Category.id category)) as [He|He].
    + rewrite filter_cons_False by (intros H; by apply H). by apply IH.
    + rewrite filter_cons_True by done.
      rewrite fmap_cons. apply NoDup_cons. split; [|by apply IH].
      intros Hin. apply Hx.
      apply list_elem_of_fmap in Hin as (y & Hy & Hin).
      apply list_elem_of_filter in Hin as [_ Hin].
      apply list_elem_of_fmap. eauto.
  - rewrite fmap_app. apply NoDup_app. split; [done|]. split.
    + intros i Hi Hi'. apply list_elem_of_singleton in Hi'. subst i.
      by apply (isSelected_false_not_in _ _ Hsel).
    + apply NoDup_singleton.
Qed.

Lemma X3_toggle_keeps_ids_unique_witness :
  NoDup (Category.id <$>
           handleCategoryChange [Scenario.electronics; Scenario.toys]
                                Scenario.garden).
Proof.
  apply (X3_toggle_keeps_ids_unique [Scenario.electronics; Scenario.toys]
           Scenario.garden).
  apply (bool_decide_unpack _). by vm_compute.
Defined.

(** X4: removing a badge in the product form does what a click on the
    selected row does, and both agree with the filter's handler;
    removing a category that is not selected changes nothing. *)
Theorem X4_remove_is_toggle_of_selected (value : list Category.t)
    (category : Category.t) :
  onCategoryClick value category = handleCategoryChange value category ∧
  removeCategory value category =
    (if isSelected value category
     then onCategoryClick value category else value) ∧
  isSelected (removeCategory value category) category = false.
Proof.
  split; [reflexivity|]. split.
  - unfold removeCategory, onCategoryClick.
    fold (isSelected value category).
    destruct (isSelected value category) eqn:Hsel; [done|].
    by apply filter_unselected.
  - unfold removeCategory. rewrite isSelected_filter.
    by rewrite bool_decide_eq_true_2.
Qed.

(** ** The keys of the queries and the reach of a mutation *)

(** X5: two states of the dashboard filter use the same cache entry
    only if they select the same category ids, in the same order, and
    search for the same text. *)
Theorem X5_dashboard_key_injective
    (selected1 selected2 : list Category.t) (name1 name2 : string) :
  useGetProductsQuery_queryKey (Some (dashboardPayload selected1 name1))
  = useGetProductsQuery_queryKey (Some (dashboardPayload selected2 name2)) →
  Category.id <$> selected1 = Category.id <$> selected2 ∧ name1 = name2.
Proof.
  unfold useGetProductsQuery_queryKey, dashboardPayload. simpl.
  destruct selected1 as [|a1 l1]; destruct selected2 as [|a2 l2]; simpl;
    intros H; inversion H; by subst.
Qed.

Lemma X5_dashboard_key_injective_witness :
  Category.id <$> [Scenario.toys; Scenario.garden]
  = Category.id <$> [Category.mk 2 "Toys"; Category.mk 3 "Garden"] ∧
  "kite" = "kite".
Proof.
  apply (X5_dashboard_key_injective
           [Scenario.toys; Scenario.garden]
           [Category.mk 2 "Toys"; Category.mk 3 "Garden"] "kite" "kite").
  reflexivity.
Defined.

Lemma run_lookup_fmap (s : Submission) (c : QueryCache) (k : QueryKey) :
  ∃ f : QueryEntry → QueryEntry,
    cacheOf (run s c) !! k = f <$> c !! k ∧
    (matchKey (resourceKey s) k = false → ∀ q, f q = q).
Proof.
  destruct (updaterOf s) as [u|] eqn:Hu.
  - destruct (run_committed s u c Hu) as (-> & _).
    unfold cacheOf; simpl. rewrite !lookup_onAffected, <- !option_fmap_compose.
    eexists. split; [reflexivity|].
    intros Hm q. simpl. by rewrite Hm.
  - apply updaterOf_failed in Hu.
    destruct (run_rejected s c Hu) as (-> & _).
    exists id. split; [by rewrite option_fmap_id|done].
Qed.

(** X6: a mutation neither adds an entry to the store nor removes one,
    and it reaches only the queries of its own resource: a product
    mutation leaves the entry of the categories query as it was, and a
    category create leaves the entry of every products query as it
    was. *)
Theorem X6_other_resource_untouched (s : Submission) (c : QueryCache)
    (payload : option GetProductsPayload.t) :
  dom (cacheOf (run s c)) = dom c ∧
  (if isProductMutation s
   then cacheOf (run s c) !! useGetCategories_queryKey
        = c !! useGetCategories_queryKey
   else cacheOf (run s c) !! useGetProductsQuery_queryKey payload
        = c !! useGetProductsQuery_queryKey payload).
Proof.
  split.
  - apply set_eq. intros k. rewrite !elem_of_dom.
    destruct (run_lookup_fmap s c k) as (f & -> & _).
    by rewrite fmap_is_Some.
  - destruct (isProductMutation s) eqn:Hp.
    + destruct (run_lookup_fmap s c useGetCategories_queryKey)
        as (f & -> & Hf).
      rewrite (option_fmap_ext f id), option_fmap_id; [done|].
      apply Hf. by destruct s.
    + destruct (run_lookup_fmap s c (useGetProductsQuery_queryKey payload))
        as (f & -> & Hf).
      rewrite (option_fmap_ext f id), option_fmap_id; [done|].
      apply Hf. by destruct s.
Qed.

Lemma updater_envelope (s : Submission)
    (u : option ListResponse → option ListResponse) (old : ListResponse) :
  updaterOf s = Some u →
  ∃ new : ListResponse,
    u (Some old) = Some new ∧
    message new = message old ∧ status new = status old.
Proof.
  intros Hu.
  destruct s as [p o|p o|p o|p o]; destruct o as [r|e];
    simpl in Hu; inversion Hu; subst u; clear Hu;
    unfold addProductUpdater, editProductUpdater, deleteProductUpdater,
      addCategoryUpdater;
    destruct (data old); eauto.
Qed.

(** X7: whatever a mutation does to the list of a cached response, the
    message and the status of that response stay as the last fetch
    left them; an entry that holds a response still holds one after
    the mutation. *)
Theorem X7_envelope_kept (s : Submission) (c : QueryCache) (k : QueryKey)
    (q : QueryEntry) (old : ListResponse) :
  c !! k = Some q →
  state_data q = Some old →
  ∃ (q' : QueryEntry) (new : ListResponse),
    cacheOf (run s c) !! k = Some q' ∧
    state_data q' = Some new ∧
    message new = message old ∧ status new = status old.
Proof.
  intros Hk Hq.
  destruct (updaterOf s) as [u|] eqn:Hu.
  - rewrite (committed_lookup s u c k q Hu Hk).
    destruct (matchKey (resourceKey s) k); [|by exists q, old].
    destruct (updater_envelope s u old Hu) as (new & Hnew & Hm & Hs).
    assert (Hw : state_data (writeEntry u (cancelEntry q)) = Some new).
    { unfold writeEntry. rewrite cancelEntry_data. rewrite Hq.
      rewrite Hnew. done. }
    cbv zeta. unfold predicate. rewrite Hw.
    by exists (writeEntry u (cancelEntry q)), new.
  - apply updaterOf_failed in Hu.
    destruct (run_rejected s c Hu) as (-> & _). by exists q, old.
Qed.

Lemma X7_envelope_kept_witness :
  ∃ (q' : QueryEntry) (new : ListResponse),
    cacheOf (run Scenario.deleteKite Scenario.store) !! Scenario.toyProducts
      = Some q' ∧
    state_data q' = Some new ∧
    message new = "ok" ∧ status new = success.
Proof.
  apply (X7_envelope_kept Scenario.deleteKite Scenario.store
           Scenario.toyProducts
           (mkEntry
              (Some (Scenario.ok (Some [ProductRow Scenario.kite;
                                        ProductRow Scenario.robot])))
              Success false (Some 4%nat) 0)
           (Scenario.ok (Some [ProductRow Scenario.kite;
                               ProductRow Scenario.robot])));
    reflexivity.
Defined.

(** ** How the patches of the product hooks compose *)

Lemma edit_maps_rows (payload : EditProductPayload.t)
    (newProduct : Response Product.t) (c : QueryCache) (k : QueryKey)
    (rows : list Row) :
  matchKey productsKey k = true →
  cachedRows c k = Some rows →
  cachedRows (cacheOf (run (SubmitEditProduct payload (Fulfilled newProduct)) c)) k
    = Some (replaceRow newProduct <$> rows).
Proof.
  intros Hm Hrows. eapply committed_rows; [reflexivity|done|done|].
  intros old Hd. unfold editProductUpdater. by rewrite Hd.
Qed.

Lemma filter_rows_all (ids : list Z) (rows : list Row) :
  Forall (λ row, row_id row ∉ ids) rows →
  filter (λ row, row_id row ∉ ids) rows = rows.
Proof.
  induction 1 as [|row rows Hrow _ IH]; [done|].
  rewrite filter_cons_True by done. by rewrite IH.
Qed.

(** X8: a create followed by the delete of the created product (the
    server answering the delete with that record) gives back, in every
    cached products list that did not hold its id, exactly the list
    from before the create. *)
Theorem X8_create_then_delete
    (payload : AddProductPayload.t) (newProduct : Response Product.t)
    (X : Z) (deletedProduct : Response (list Product.t))
    (c : QueryCache) (k : QueryKey) (rows : list Row) :
  matchKey productsKey k = true →
  cachedRows c k = Some rows →
  data deletedProduct = [data newProduct] →
  Forall (λ row, row_id row ≠ Product.id (data newProduct)) rows →
  cachedRows
    (cacheOf (run (SubmitDeleteProduct X (Fulfilled deletedProduct))
       (cacheOf (run (SubmitAddProduct payload (Fulfilled newProduct)) c)))) k
  = Some rows.
Proof.
  intros Hm Hrows Hd Hfresh.
  rewrite (delete_removes_response_ids X deletedProduct _ k
             (ProductRow (data newProduct) :: rows) Hm
             (add_prepends_rows payload newProduct c k rows Hm Hrows)).
  rewrite Hd. f_equal.
  rewrite filter_cons_False.
  - apply filter_rows_all. eapply Forall_impl; [exact Hfresh|].
    intros row Hrow Hin. apply Hrow.
    by apply list_elem_of_singleton in Hin.
  - intros Hnot. apply Hnot. simpl. apply list_elem_of_singleton. done.
Qed.

Lemma X8_create_then_delete_witness :
  cachedRows
    (cacheOf (run (SubmitDeleteProduct 11 (Fulfilled (Scenario.ok [Scenario.drone])))
       (cacheOf (run Scenario.addDrone Scenario.store)))) Scenario.allProducts
  = Some [ProductRow Scenario.lamp; ProductRow Scenario.kite;
          ProductRow Scenario.robot].
Proof.
  apply (X8_create_then_delete
           (AddProductPayload.mk "Drone" [1] (Finite (inject_Z 900)))
           (Scenario.ok Scenario.drone) 11 (Scenario.ok [Scenario.drone])
           Scenario.store Scenario.allProducts
           [ProductRow Scenario.lamp; ProductRow Scenario.kite;
            ProductRow Scenario.robot]);
    [reflexivity | reflexivity | reflexivity |].
  repeat constructor; discriminate.
Defined.

Lemma replaceRow_idempotent (newProduct : Response Product.t) (row : Row) :
  replaceRow newProduct (replaceRow newProduct row) = replaceRow newProduct row.
Proof.
  unfold replaceRow.
  destruct (decide (row_id row = Product.id (data newProduct))) as [Hrow|Hrow].
  - rewrite (bool_decide_eq_true_2 _ Hrow). simpl.
    by rewrite bool_decide_eq_true_2 by done.
  - by rewrite !(bool_decide_eq_false_2 _ Hrow).
Qed.

(** X9: an update is idempotent on the cache: settling the same
    committed update a second time leaves every cached products list
    as the first settlement left it. *)
Theorem X9_update_idempotent
    (payload : EditProductPayload.t) (newProduct : Response Product.t)
    (c : QueryCache) (k : QueryKey) (rows : list Row) :
  matchKey productsKey k = true →
  cachedRows c k = Some rows →
  let s := SubmitEditProduct payload (Fulfilled newProduct) in
  cachedRows (cacheOf (run s (cacheOf (run s c)))) k
  = cachedRows (cacheOf (run s c)) k.
Proof.
  intros Hm Hrows s. subst s.
  pose proof (edit_maps_rows payload newProduct c k rows Hm Hrows) as H1.
  rewrite (edit_maps_rows payload newProduct _ k _ Hm H1), H1.
  f_equal. rewrite <- list_fmap_compose.
  apply list_fmap_ext. intros i row _. apply replaceRow_idempotent.
Qed.

Lemma X9_update_idempotent_witness :
  cachedRows
    (cacheOf (run Scenario.renameLamp
                (cacheOf (run Scenario.renameLamp Scenario.store))))
    Scenario.allProducts
  = cachedRows (cacheOf (run Scenario.renameLamp Scenario.store))
      Scenario.allProducts.
Proof.
  apply (X9_update_idempotent
           (EditProductPayload.mk 5 "New" [1] (Finite (inject_Z 120)))
           (Scenario.ok (Product.mk 5 "New" (inject_Z 120) [Scenario.electronics]))
           Scenario.store Scenario.allProducts
           [ProductRow Scenario.lamp; ProductRow Scenario.kite;
            ProductRow Scenario.robot]);
    reflexivity.
Defined.

(** X10: an update whose record has an id that a cached products list
    does not hold leaves that list exactly as it was; the record is
    not inserted. *)
Theorem X10_update_of_absent_id
    (payload : EditProductPayload.t) (newProduct : Response Product.t)
    (c : QueryCache) (k : QueryKey) (rows : list Row) :
  matchKey productsKey k = true →
  cachedRows c k = Some rows →
  Forall (λ row, row_id row ≠ Product.id (data newProduct)) rows →
  cachedRows (cacheOf (run (SubmitEditProduct payload (Fulfilled newProduct)) c)) k
  = Some rows.
Proof.
  intros Hm Hrows Habsent.
  rewrite (edit_maps_rows payload newProduct c k rows Hm Hrows). f_equal.
  clear Hrows. induction Habsent as [|row rows Hrow _ IH]; [done|].
  rewrite fmap_cons, IH. unfold replaceRow.
  by rewrite bool_decide_eq_false_2 by done.
Qed.

Lemma X10_update_of_absent_id_witness :
  cachedRows (cacheOf (run Scenario.renameLamp Scenario.store))
             Scenario.toyProducts
  = Some [ProductRow Scenario.kite; ProductRow Scenario.robot].
Proof.
  apply (X10_update_of_absent_id
           (EditProductPayload.mk 5 "New" [1] (Finite (inject_Z 120)))
           (Scenario.ok (Product.mk 5 "New" (inject_Z 120) [Scenario.electronics]))
           Scenario.store Scenario.toyProducts
           [ProductRow Scenario.kite; ProductRow Scenario.robot]);
    [reflexivity | reflexivity |].
  repeat constructor; discriminate.
Defined.

(** X11: after a delete, a cached products list is a sublist of what
    it was (no record is added or reordered), none of its records has
    an id that the server's response lists, and settling the same
    delete again changes nothing more. *)
Theorem X11_delete_result
    (X : Z) (deletedProduct : Response (list Product.t))
    (c : QueryCache) (k : QueryKey) (rows : list Row) :
  matchKey productsKey k = true →
  cachedRows c k = Some rows →
  let s := SubmitDeleteProduct X (Fulfilled deletedProduct) in
  ∃ rows',
    cachedRows (cacheOf (run s c)) k = Some rows' ∧
    rows' `sublist_of` rows ∧
    Forall (λ row, row_id row ∉ Product.id <$> data deletedProduct) rows' ∧
    cachedRows (cacheOf (run s (cacheOf (run s c)))) k = Some rows'.
Proof.
  intros Hm Hrows s. subst s.
  pose proof (delete_removes_response_ids X deletedProduct c k rows Hm Hrows)
    as H1.
  eexists. split; [exact H1|]. split; [apply sublist_filter|].
  assert (Hall : Forall (λ row, row_id row ∉ Product.id <$> data deletedProduct)
                   (filter (λ row, row_id row ∉ Product.id <$> data deletedProduct)
                           rows)).
  { apply Forall_forall. intros row Hin.
    by apply list_elem_of_filter in Hin as [Hrow _]. }
  split; [exact Hall|].
  rewrite (delete_removes_response_ids X deletedProduct _ k _ Hm H1).
  f_equal. by apply filter_rows_all.
Qed.

Lemma X11_delete_result_witness :
  ∃ rows',
    cachedRows (cacheOf (run Scenario.deleteKite Scenario.store))
               Scenario.allProducts = Some rows' ∧
    rows' `sublist_of` [ProductRow Scenario.lamp; ProductRow Scenario.kite;
                        ProductRow Scenario.robot] ∧
    Forall (λ row, row_id row ∉ [7]) rows' ∧
    cachedRows
      (cacheOf (run Scenario.deleteKite
                  (cacheOf (run Scenario.deleteKite Scenario.store))))
      Scenario.allProducts = Some rows'.
Proof.
  apply (X11_delete_result 7 (Scenario.ok [Scenario.kite]) Scenario.store
           Scenario.allProducts
           [ProductRow Scenario.lamp; ProductRow Scenario.kite;
            ProductRow Scenario.robot]);
    reflexivity.
Defined.

(** X12: a response that lists nothing changes no list: a delete
    answered with an empty list removes no record from any cached
    products list, and a category create answered with an empty list
    adds none to any cached categories list. *)
Theorem X12_empty_response_changes_nothing :
  (∀ (X : Z) (deletedProduct : Response (list Product.t))
     (c : QueryCache) (k : QueryKey) (rows : list Row),
     data deletedProduct = [] →
     matchKey productsKey k = true →
     cachedRows c k = Some rows →
     cachedRows
       (cacheOf (run (SubmitDeleteProduct X (Fulfilled deletedProduct)) c)) k
     = Some rows) ∧
  (∀ (category : string) (newCategory : Response (list Category.t))
     (c : QueryCache) (k : QueryKey) (rows : list Row),
     data newCategory = [] →
     matchKey categoriesKey k = true →
     cachedRows c k = Some rows →
     cachedRows
       (cacheOf (run (SubmitAddCategory category (Fulfilled newCategory)) c)) k
     = Some rows).
Proof.
  split.
  - intros X deletedProduct c k rows Hd Hm Hrows.
    rewrite (delete_removes_response_ids X deletedProduct c k rows Hm Hrows).
    rewrite Hd. f_equal. apply filter_rows_all.
    apply Forall_forall. intros row _. apply not_elem_of_nil.
  - intros category newCategory c k rows Hc Hm Hrows.
    rewrite (category_appends_rows category newCategory c k rows Hm Hrows).
    rewrite Hc. by rewrite app_nil_r.
Qed.

Lemma X12_empty_response_changes_nothing_witness :
  cachedRows
    (cacheOf (run (SubmitDeleteProduct 7 (Fulfilled (Scenario.ok [])))
                (delete categoriesKey Scenario.store)))
    Scenario.toyProducts
    = Some [ProductRow Scenario.kite; ProductRow Scenario.robot] ∧
  cachedRows
    (cacheOf (run (SubmitAddCategory "garden" (Fulfilled (Scenario.ok [])))
                Scenario.store))
    categoriesKey
    = Some [CategoryRow Scenario.electronics; CategoryRow Scenario.toys].
Proof.
  split.
  - apply (proj1 X12_empty_response_changes_nothing 7 (Scenario.ok [])
             (delete categoriesKey Scenario.store) Scenario.toyProducts
             [ProductRow Scenario.kite; ProductRow Scenario.robot]);
      reflexivity.
  - apply (proj2 X12_empty_response_changes_nothing "garden" (Scenario.ok [])
             Scenario.store categoriesKey
             [CategoryRow Scenario.electronics; CategoryRow Scenario.toys]);
      reflexivity.
Defined.

(** ** When the user is told *)

Lemma run_committed_toast (s : Submission)
    (u : option ListResponse → option ListResponse) (c : QueryCache) :
  updaterOf s = Some u →
  let fk := resourceKey s in
  let c1 := cacheOf (cancelQueries fk c) in
  let c2 := cacheOf (setQueriesData fk u c1) in
  ∃ req mid tail,
    eventsOf (run s c) =
      ((req :: eventsOf (cancelQueries fk c)) ++
       eventsOf (setQueriesData fk u c1) ++ mid) ++
      eventsOf (invalidateQueries fk predicate c2) ++ tail ∧
    isRequest req = true ∧
    forallb isToast mid = true ∧ forallb isConsole tail = true.
Proof.
  intros Hu; destruct s as [p o|p o|p o|p o]; destruct o as [r|e];
    simpl in Hu; inversion Hu; subst u; clear Hu; simpl.
  - eexists _, [_], []. split; [norm_events|done].
  - eexists _, [_], [_]. split; [norm_events|done].
  - eexists _, [_], []. split; [norm_events|done].
  - eexists _, [], []. split; [norm_events|done].
Qed.

Lemma forallb_kind (P : Event → bool) (l : list Event) (e : Event) :
  forallb P l = true → e ∈ l → P e = true.
Proof.
  intros Hl He. rewrite forallb_forall in Hl.
  apply Hl. by apply list_elem_of_In.
Qed.

Ltac kind_close :=
  try done;
  match goal with
  | x : Event |- _ => by destruct x
  end.

(** X13: the success toast of a mutation is shown only after the
    cache has been patched, and before any stale entry is invalidated
    or refetched: every write precedes every toast, and every toast
    precedes every invalidation and refetch. *)
Theorem X13_toast_between_write_and_invalidate (s : Submission)
    (c : QueryCache) :
  precedes isWrite isToast (eventsOf (run s c)) ∧
  precedes isToast isInvalidation (eventsOf (run s c)).
Proof.
  destruct (updaterOf s) as [u|] eqn:Hu.
  - split.
    + destruct (run_committed s u c Hu)
        as (_ & req & mid & tail & -> & Hr & Hm & Ht).
      rewrite app_assoc.
      apply precedes_app; intros e He; event_kinds; subst; kind_close.
    + destruct (run_committed_toast s u c Hu)
        as (req & mid & tail & -> & Hr & Hm & Ht).
      apply precedes_app; intros e He.
      * apply elem_of_app in He as [He|He];
          [|apply elem_of_app in He as [He|He]].
        -- event_kinds; subst; kind_close.
        -- event_kinds; subst; kind_close.
        -- apply (forallb_kind _ _ _ Hm) in He. kind_close.
      * apply elem_of_app in He as [He|He].
        -- event_kinds; subst; kind_close.
        -- apply (forallb_kind _ _ _ Ht) in He. kind_close.
  - apply updaterOf_failed in Hu.
    destruct (run_rejected s c Hu) as (_ & req & tail & -> & Hr & Ht).
    split.
    + change (req :: tail) with ([] ++ req :: tail).
      apply precedes_app; intros e He; event_kinds; subst; kind_close.
    + rewrite <- (app_nil_r (req :: tail)).
      apply precedes_app; intros e He; event_kinds; subst; kind_close.
Qed.

(** ** The product form *)

(** X14: a call that the form submits is well formed: it carries the
    name of the form, which is not empty, and the ids of the selected
    categories in their order, at least one; it is an edit of the
    product the form was opened for, under that product's id, and a
    create when the form was opened for none. *)
Theorem X14_submitted_call_wellformed (rev : SchemaRevision)
    (props : AddEditProductFormProps) (data : AddProductSchema.t)
    (call : MutationCall) :
  onSubmit rev props data = Some call →
  payloadName call = AddProductSchema.name data ∧
  payloadName call ≠ EmptyString ∧
  payloadCategoryIds call = Category.id <$> AddProductSchema.categories data ∧
  payloadCategoryIds call ≠ [] ∧
  payloadId call = Product.id <$> product props.
Proof.
  unfold onSubmit. intros Hsubmit.
  destruct (AddProductZodSchema rev data) eqn:Hz; [|done].
  unfold AddProductZodSchema in Hz.
  apply andb_true_iff in Hz as [Hz Hcats].
  apply andb_true_iff in Hz as [Hname _].
  apply bool_decide_eq_true_1 in Hname, Hcats.
  simpl in Hsubmit.
  assert (Hn : AddProductSchema.name data ≠ EmptyString).
  { intros E. rewrite E in Hname. simpl in Hname. lia. }
  assert (Hc : Category.id <$> AddProductSchema.categories data ≠ []).
  { intros E. apply fmap_nil_inv in E. rewrite E in Hcats. simpl in Hcats. lia. }
  destruct (product props); injection Hsubmit as <-; by simpl.
Qed.

Lemma X14_submitted_call_wellformed_witness :
  let call :=
    AddProductMutation (AddProductPayload.mk "Drone" [1] (Finite (inject_Z 900))) in
  payloadName call = "Drone" ∧
  payloadName call ≠ EmptyString ∧
  payloadCategoryIds call = Category.id <$> [Scenario.electronics] ∧
  payloadCategoryIds call ≠ [] ∧
  payloadId call = None.
Proof.
  apply (X14_submitted_call_wellformed PriceAtLeastOne (mkProps None)
           (AddProductSchema.mk "Drone" (Finite (inject_Z 900)) [Scenario.electronics])
           (AddProductMutation (AddProductPayload.mk "Drone" [1] (Finite (inject_Z 900))))).
  reflexivity.
Defined.

(** X15: under the schema that asks for a price of at least one, the
    form of a new product is never submitted as long as its price
    field was not edited, whatever name and categories were entered:
    the price is still the default 0. *)
Theorem X15_new_product_needs_price (changes : list FieldChange) :
  priceEdited changes = false →
  onSubmit PriceAtLeastOne (mkProps None) (formAfter (mkProps None) changes)
  = None.
Proof.
  intros Hedit.
  pose proof (fold_changes_price changes (defaultValues (mkProps None))) as H.
  cbv zeta in H. rewrite Hedit in H.
  unfold onSubmit, AddProductZodSchema, formAfter. rewrite H. simpl.
  by rewrite andb_false_r.
Qed.

Lemma X15_new_product_needs_price_witness :
  onSubmit PriceAtLeastOne (mkProps None)
    (formAfter (mkProps None)
       [ChangeName "Drone"; ChangeCategories [Scenario.electronics]])
  = None.
Proof.
  apply (X15_new_product_needs_price
           [ChangeName "Drone"; ChangeCategories [Scenario.electronics]]).
  reflexivity.
Defined.

(** X16: the revision of the schema that accepts a price of zero
    accepts every form the stricter revision accepts, and submits the
    same call for it. *)
Theorem X16_revision_accepts_more (props : AddEditProductFormProps)
    (data : AddProductSchema.t) (call : MutationCall) :
  onSubmit PriceAtLeastOne props data = Some call →
  onSubmit PriceNonNegative props data = Some call.
Proof.
  unfold onSubmit. intros Hsubmit.
  destruct (AddProductZodSchema PriceAtLeastOne data) eqn:Hz; [|done].
  assert (Hz' : AddProductZodSchema PriceNonNegative data = true);
    [|by rewrite Hz'].
  unfold AddProductZodSchema in *.
  apply andb_true_iff in Hz as [Hz Hcats].
  apply andb_true_iff in Hz as [Hname Hprice].
  rewrite Hname, Hcats. simpl. rewrite andb_true_r.
  destruct (AddProductSchema.price data) as [q|]; [|done].
  apply Qle_bool_iff. apply Qle_bool_iff in Hprice.
  apply (Qle_trans _ (inject_Z 1)); [|exact Hprice]. by vm_compute.
Qed.

Lemma X16_revision_accepts_more_witness :
  onSubmit PriceNonNegative (mkProps None)
    (AddProductSchema.mk "Drone" (Finite (inject_Z 900)) [Scenario.electronics])
  = Some (AddProductMutation (AddProductPayload.mk "Drone" [1] (Finite (inject_Z 900)))).
Proof.
  apply (X16_revision_accepts_more (mkProps None)
           (AddProductSchema.mk "Drone" (Finite (inject_Z 900)) [Scenario.electronics])).
  reflexivity.
Defined.





(** ** What the dashboard shows after a create *)

Lemma products_query_key_matches (payload : option GetProductsPayload.t) :
  matchKey productsKey (useGetProductsQuery_queryKey payload) = true.
Proof.
  unfold matchKey, productsKey, useGetProductsQuery_queryKey.
  apply bool_decide_eq_true_2. by eexists.
Qed.

(** X19: a created product is put at the head of the cached list of
    every dashboard query that has data, whatever the category filter
    and the search text of that query, so also of a query whose filter
    the product does not satisfy; a created category is put at the end
    of the cached list of the categories query. *)
Theorem X19_create_reaches_every_filter :
  (∀ (payload : AddProductPayload.t) (newProduct : Response Product.t)
     (c : QueryCache) (selectedCategories : list Category.t)
     (searchName : string) (products : list Row),
     let key :=
       useGetProductsQuery_queryKey
         (Some (dashboardPayload selectedCategories searchName)) in
     cachedRows c key = Some products →
     cachedRows
       (cacheOf (run (SubmitAddProduct payload (Fulfilled newProduct)) c)) key
     = Some (ProductRow (data newProduct) :: products)) ∧
  (∀ (category : string) (newCategory : Response (list Category.t))
     (c : QueryCache) (categories : list Row),
     cachedRows c useGetCategories_queryKey = Some categories →
     cachedRows
       (cacheOf (run (SubmitAddCategory category (Fulfilled newCategory)) c))
       useGetCategories_queryKey
     = Some (categories ++ (CategoryRow <$> data newCategory))).
Proof.
  split.
  - intros payload newProduct c selectedCategories searchName products key Hp.
    apply add_prepends_rows; [apply products_query_key_matches|done].
  - intros category newCategory c categories Hc.
    by apply category_appends_rows.
Qed.

Lemma X19_create_reaches_every_filter_witness :
  cachedRows
    (cacheOf (run Scenario.addDrone (delete categoriesKey Scenario.store)))
    (useGetProductsQuery_queryKey
       (Some (dashboardPayload [Scenario.toys] EmptyString)))
    = Some [ProductRow Scenario.drone; ProductRow Scenario.kite;
            ProductRow Scenario.robot] ∧
  cachedRows
    (cacheOf (run Scenario.addGarden Scenario.store))
    useGetCategories_queryKey
    = Some [CategoryRow Scenario.electronics; CategoryRow Scenario.toys;
            CategoryRow Scenario.garden].
Proof.
  split.
  - apply (proj1 X19_create_reaches_every_filter
             (AddProductPayload.mk "Drone" [1] (Finite (inject_Z 900)))
             (Scenario.ok Scenario.drone)
             (delete categoriesKey Scenario.store)
             [Scenario.toys] EmptyString
             [ProductRow Scenario.kite; ProductRow Scenario.robot]);
      reflexivity.
  - apply (proj2 X19_create_reaches_every_filter
             "garden" (Scenario.ok [Scenario.garden]) Scenario.store
             [CategoryRow Scenario.electronics; CategoryRow Scenario.toys]);
      reflexivity.
Defined.
